(** * Presence and scoped broadcast core of the USTHB portal backend

    A shallow embedding of [backend/src/services/socketService.js]: the two
    process-wide connection maps, the Socket.IO room fabric the handlers talk
    to, the handlers registered in [initializeSocket], and the helpers
    [joinCourseRooms], [broadcastStatusUpdate] and [isUserOnline].

    Conventions.
    - Ids (user ids, socket ids, course ids) are strings, as
      [user._id.toString()] and [socket.id] are. The transport draws a
      fresh socket id for every connection.
    - A client payload is a JSON value ([jsval]); property reads, truthiness,
      [===] against a string literal and template-literal interpolation are
      written out below.
    - [new Date()] is the argument [now] (milliseconds).
    - The service is single-threaded. An [async] helper has one suspension
      point, its store query: the call leaves a [Pending] continuation in
      the state and returns, and a later [settle] runs the continuation
      against the store as it is then. Continuations settle in any order.
    - A handler that throws (a property read on [undefined] or [null], the
      interpolation of an object that has no string form) yields [Threw];
      every other outcome is [Ok] with the next state.
    - The transport is Socket.IO's: a room is a set of socket ids,
      [socket.to(room)] skips the sender, [io.to(room)] does not, a packet
      for a socket id that is no longer connected is dropped, a
      disconnecting socket has left its rooms when its [disconnect] handler
      runs, and [socket.join] does nothing once the socket has closed. The
      room every socket has under its own id is left out: no handler
      addresses it.
    - The [grade_updated] handler and the handshake middleware are embedded
      on their own, outside [handle]; the [connect_error] handler is not
      embedded. *)

From stdpp Require Import base gmap strings list fin_maps fin_sets pretty.

(** ** JSON values as JavaScript sees them *)

#[local] Set Warnings "-register-all,-clear-no-such-hyp".

Inductive jsval :=
  | JUndefined
  | JNull
  | JBool (b : bool)
  | JNum (z : Z)
  | JStr (s : string)
  | JDate (ms : Z)
  | JArr (items : list jsval)
  | JObj (fields : list (string * jsval)).

(** First binding of [k] in an object's own properties. *)
Fixpoint assoc (k : string) (fields : list (string * jsval)) : option jsval :=
  match fields with
  | [] => None
  | (k', v) :: rest => if String.eqb k k' then Some v else assoc k rest
  end.

Inductive Result (A : Type) :=
  | Ok (a : A)
  | Threw (err : string).
Arguments Ok {A} a.
Arguments Threw {A} err.

Global Instance Result_bind : MBind Result := λ A B k r,
  match r with
  | Ok a => k a
  | Threw e => Threw e
  end.

(** [v.k]: a [TypeError] on [undefined] and [null], [undefined] when the
    property is absent (the keys read by the handlers are no built-in
    property of a string, number, boolean, date or array). *)
Definition get_prop (v : jsval) (k : string) : Result jsval :=
  match v with
  | JUndefined | JNull => Threw "TypeError"
  | JObj fields => Ok (default JUndefined (assoc k fields))
  | _ => Ok JUndefined
  end.

(** Truthiness, as used by [if (x)] and [x && y]. *)
Definition truthy (v : jsval) : bool :=
  match v with
  | JUndefined | JNull => false
  | JBool b => b
  | JNum z => negb (Z.eqb z 0)
  | JStr s => negb (String.eqb s "")
  | JDate _ | JArr _ | JObj _ => true
  end.

(** [v === 'lit'] for a string literal. *)
Definition strict_eq_str (v : jsval) (lit : string) : bool :=
  match v with
  | JStr s => String.eqb s lit
  | _ => false
  end.

(** A number of a decoded payload is a double. [JNum z] stands for the
    double nearest to the integer [z], ties to even, which is what
    [JSON.parse] makes of the literal; [None] past the largest double,
    where it makes [Infinity]. *)
Local Open Scope Z_scope.

Definition nearest_double (n : Z) : option Z :=
  let bits := Z.log2 n + 1 in
  if bits <=? 53 then Some n
  else
    let sh := bits - 53 in
    let q := Z.shiftr n sh in
    let r := n - Z.shiftl q sh in
    let half := Z.shiftl 1 (sh - 1) in
    let q' := if (half <? r) || ((r =? half) && Z.odd q) then q + 1 else q in
    let v := Z.shiftl q' sh in
    if 1024 <=? Z.log2 v then None else Some v.

Definition reads_back (c v : Z) : bool :=
  match nearest_double c with
  | Some w => w =? v
  | None => false
  end.

Definition decimal_digits (n : Z) : Z := Z.of_nat (String.length (pretty n)).

(** The decimal with the fewest significant digits that reads back as the
    double [v], the one nearest to [v] when two of that length do: [k]
    digits are tried for [k] from 1 up, [v] rounded down and up to [k]
    digits. Seventeen digits always suffice. *)
Fixpoint shortest_from (fuel : nat) (k : Z) (v : Z) : Z :=
  match fuel with
  | O => v
  | S fuel' =>
      let n := decimal_digits v in
      if n <=? k then v
      else
        let u := 10 ^ (n - k) in
        let lo := v / u * u in
        let hi := lo + u in
        match reads_back lo v, reads_back hi v with
        | true, true =>
            if v - lo <? hi - v then lo
            else if hi - v <? v - lo then hi
            else if Z.even (lo / u) then lo else hi
        | true, false => lo
        | false, true => hi
        | false, false => shortest_from fuel' (k + 1) v
        end
  end.

Fixpoint strip_zeros (fuel : nat) (c : Z) : Z :=
  match fuel with
  | O => c
  | S fuel' => if (0 <? c) && (c mod 10 =? 0) then strip_zeros fuel' (c / 10) else c
  end.

(** [Number::toString] of a non-negative integer: plain decimal up to 21
    digits, [d.ddde+x] from there. *)
Definition decimal (c : Z) : string :=
  let n := decimal_digits c in
  if n <=? 21 then pretty c
  else
    match pretty (strip_zeros (Z.to_nat n) c) with
    | String d EmptyString => String d EmptyString +:+ "e+" +:+ pretty (n - 1)
    | String d rest => String d ("." +:+ rest) +:+ "e+" +:+ pretty (n - 1)
    | EmptyString => EmptyString
    end.

Definition number_to_string (z : Z) : string :=
  (if z <? 0 then "-" else "") +:+
  match nearest_double (Z.abs z) with
  | Some v => decimal (shortest_from 17 1 v)
  | None => "Infinity"
  end.

Local Close Scope Z_scope.

(** [`${v}`]. A number prints as the double it is. An array prints its
    elements joined with commas, [null] and [undefined] elements as
    nothing. An object of a decoded payload holds no function: with an own
    [toString] property neither that nor the inherited [valueOf] yields a
    primitive and the conversion throws a [TypeError]; without one the
    inherited [toString] answers. A [JDate] is built by the server only
    and no handler interpolates one; it prints through its millisecond
    value here, and a decoded payload holds none ([decoded] below). *)
Fixpoint to_string (v : jsval) : Result string :=
  match v with
  | JUndefined => Ok "undefined"
  | JNull => Ok "null"
  | JBool true => Ok "true"
  | JBool false => Ok "false"
  | JNum z => Ok (number_to_string z)
  | JStr s => Ok s
  | JDate ms => Ok (pretty ms)
  | JArr items =>
      (fix join_items (l : list jsval) : Result string :=
         match l with
         | [] => Ok ""
         | x :: rest =>
             head ← match x with JUndefined | JNull => Ok "" | _ => to_string x end;
             match rest with
             | [] => Ok head
             | _ => tail ← join_items rest; Ok (head +:+ "," +:+ tail)
             end
         end) items
  | JObj fields =>
      match assoc "toString" fields with
      | Some _ => Threw "TypeError"
      | None => Ok "[object Object]"
      end
  end.

(** What the transport can hand a handler: a value decoded from JSON,
    which holds no [Date] at any depth ([undefined] is what a handler
    called without argument gets, and what an absent property reads as). *)
Fixpoint decoded (v : jsval) : bool :=
  match v with
  | JDate _ => false
  | JArr items => forallb decoded items
  | JObj fields => forallb (λ kv, decoded kv.2) fields
  | _ => true
  end.

(** ** Documents of the external store (models/User.js, models/Course.js) *)

Inductive Role := student | teacher | admin.

Global Instance Role_eq_dec : EqDecision Role.
Proof. solve_decision. Defined.

Definition role_name (r : Role) : string :=
  match r with
  | student => "student"
  | teacher => "teacher"
  | admin => "admin"
  end.

(** [department] is required for students and teachers only. The elements of
    [enrolledCourses] are kept as the strings they interpolate to. *)
Record User := {
  u_id : string;
  firstName : string;
  lastName : string;
  role : Role;
  department : option string;
  enrolledCourses : list string;
  isActive : bool
}.

(** [teacher] is a required path of the course schema. *)
Record Course := {
  c_id : string;
  c_name : string;
  c_teacher : string;
  enrolledStudents : list string
}.

(** The filters of [Course.find] in [joinCourseRooms]:
    [{ enrolledStudents: id }], [{ $or: [{ teacher: id },
    { enrolledStudents: id }] }] and [{}]. *)
Inductive CourseFilter :=
  | Enrolled (userId : string)
  | TeacherOrEnrolled (userId : string)
  | AllCourses.

(** The queries the service issues. *)
Inductive Query :=
  | QCourseById (courseId : string)
  | QCourseFind (flt : CourseFilter)
  | QUserById (userId : string).

(** [rejects q] says the promise of [q] rejects (store unreachable, id that
    does not cast); the [try]/[catch] of the caller then runs. *)
Record Store := {
  users : list User;
  courses : list Course;
  rejects : Query → bool
}.

Inductive Outcome (A : Type) :=
  | Resolved (a : A)
  | Rejected.
Arguments Resolved {A} a.
Arguments Rejected {A}.

Definition Course_findById (db : Store) (courseId : string) : Outcome (option Course) :=
  if rejects db (QCourseById courseId) then Rejected
  else Resolved (find (λ c, String.eqb (c_id c) courseId) (courses db)).

Definition User_findById (db : Store) (userId : string) : Outcome (option User) :=
  if rejects db (QUserById userId) then Rejected
  else Resolved (find (λ u, String.eqb (u_id u) userId) (users db)).

(** [Array.prototype.includes] on a list of ids. *)
Definition includes (ids : list string) (x : string) : bool :=
  existsb (String.eqb x) ids.

Definition matches (flt : CourseFilter) (c : Course) : bool :=
  match flt with
  | Enrolled uid => includes (enrolledStudents c) uid
  | TeacherOrEnrolled uid =>
      String.eqb (c_teacher c) uid || includes (enrolledStudents c) uid
  | AllCourses => true
  end.

(** [Course.find(filter)], in collection order. *)
Definition Course_find (db : Store) (flt : CourseFilter) : Outcome (list Course) :=
  if rejects db (QCourseFind flt) then Rejected
  else Resolved (filter (λ c, matches flt c = true) (courses db)).

(** ** The transport: sockets, rooms and emissions *)

(** What the authentication middleware leaves on the socket: [socket.id] and
    [socket.user]; [socket.userId] is [user._id.toString()]. *)
Record Socket := {
  sock_id : string;
  sock_user : User
}.

Definition userId (s : Socket) : string := u_id (sock_user s).

Definition fullName (u : User) : string := firstName u +:+ " " +:+ lastName u.

(** Where an emission is addressed. [ToRoom r (Some s)] is
    [socket.to(r)], which skips the sender [s]; [ToRoom r None] is
    [io.to(r)]; [ToSocket s] is [socket.emit]; [ToAll] is [io.emit]. *)
Inductive Scope :=
  | ToSocket (sid : string)
  | ToRoom (room : string) (skip : option string)
  | ToAll.

Record Emission := {
  em_scope : Scope;
  em_event : string;
  em_payload : jsval;
  em_to : gset string
}.

(** What an [async] function waits for, with what its continuation needs:
    [Course.find] in [joinCourseRooms], [Course.findById] in the
    [join_course] handler, [User.findById] in [broadcastStatusUpdate] (whose
    [statusInfo], clock included, was built by the caller). *)
Inductive Pending :=
  | AwaitCourses (sock : Socket)
  | AwaitCourse (sock : Socket) (courseId : string)
  | AwaitUser (uid : string) (status : jsval) (lastSeen : Z).

(** The service state: the two maps of the module, the connected sockets,
    the adapter's table of rooms per socket id, the external store, the
    suspended continuations, and every emission made so far, oldest
    first. *)
Record State := {
  connectedUsers : gmap string string;
  userSockets : gmap string string;
  live : gset string;
  sids : gmap string (gset string);
  store : Store;
  pending : list Pending;
  wire : list Emission
}.

Definition with_connectedUsers (st : State) (m : gmap string string) : State :=
  {| connectedUsers := m; userSockets := userSockets st; live := live st;
     sids := sids st; store := store st; pending := pending st; wire := wire st |}.

Definition with_userSockets (st : State) (m : gmap string string) : State :=
  {| connectedUsers := connectedUsers st; userSockets := m; live := live st;
     sids := sids st; store := store st; pending := pending st; wire := wire st |}.

Definition with_live (st : State) (l : gset string) : State :=
  {| connectedUsers := connectedUsers st; userSockets := userSockets st; live := l;
     sids := sids st; store := store st; pending := pending st; wire := wire st |}.

Definition with_sids (st : State) (m : gmap string (gset string)) : State :=
  {| connectedUsers := connectedUsers st; userSockets := userSockets st; live := live st;
     sids := m; store := store st; pending := pending st; wire := wire st |}.

Definition with_store (st : State) (db : Store) : State :=
  {| connectedUsers := connectedUsers st; userSockets := userSockets st; live := live st;
     sids := sids st; store := db; pending := pending st; wire := wire st |}.

Definition with_pending (st : State) (ps : list Pending) : State :=
  {| connectedUsers := connectedUsers st; userSockets := userSockets st; live := live st;
     sids := sids st; store := store st; pending := ps; wire := wire st |}.

Definition with_wire (st : State) (w : list Emission) : State :=
  {| connectedUsers := connectedUsers st; userSockets := userSockets st; live := live st;
     sids := sids st; store := store st; pending := pending st; wire := w |}.

(** Socket ids the adapter has in [room]. *)
Definition room_members (st : State) (room : string) : gset string :=
  dom (filter (λ kv, room ∈ kv.2) (sids st)).

(** The connected sockets an emission reaches. *)
Definition recipients (st : State) (sc : Scope) : gset string :=
  match sc with
  | ToSocket sid => {[sid]} ∩ live st
  | ToRoom room None => room_members st room ∩ live st
  | ToRoom room (Some sender) => (room_members st room ∖ {[sender]}) ∩ live st
  | ToAll => live st
  end.

Definition emit (st : State) (sc : Scope) (event : string) (payload : jsval) : State :=
  with_wire st (wire st ++ [{| em_scope := sc; em_event := event;
                               em_payload := payload; em_to := recipients st sc |}]).

(** [socket.join(room)], which a closed socket ignores, and
    [socket.leave(room)]. *)
Definition join (st : State) (sid room : string) : State :=
  if decide (sid ∈ live st)
  then with_sids st (<[sid := {[room]} ∪ default ∅ (sids st !! sid)]> (sids st))
  else st.

Definition leave (st : State) (sid room : string) : State :=
  with_sids st (alter (λ rs, rs ∖ {[room]}) sid (sids st)).

(** An [async] call up to its [await]. *)
Definition suspend (st : State) (p : Pending) : State :=
  with_pending st (pending st ++ [p]).

(** What [T] has been sent, oldest first. *)
Definition inbox (st : State) (T : string) : list Emission :=
  filter (λ e, T ∈ em_to e) (wire st).

(** ** The handlers of [initializeSocket] *)

Definition user_room (uid : string) : string := "user_" +:+ uid.
Definition course_room (cid : string) : string := "course_" +:+ cid.
Definition department_room (d : string) : string := "department_" +:+ d.

(** The [{ id, name, role }] object several payloads embed. *)
Definition user_summary (sock : Socket) : jsval :=
  JObj [("id", JStr (userId sock));
        ("name", JStr (fullName (sock_user sock)));
        ("role", JStr (role_name (role (sock_user sock))))].

(** [if (user.department)]: set and not the empty string. *)
Definition department_of (u : User) : option string :=
  match department u with
  | Some d => if String.eqb d "" then None else Some d
  | None => None
  end.

(** [joinCourseRooms] from its [await] on: one query chosen by role, a join
    per course found, then the department room. A rejected query is caught
    and logged: nothing is joined, the department room included. *)
Definition joinCourseRooms (st : State) (sock : Socket) : State :=
  let flt := match role (sock_user sock) with
             | student => Enrolled (userId sock)
             | teacher => TeacherOrEnrolled (userId sock)
             | admin => AllCourses
             end in
  match Course_find (store st) flt with
  | Rejected => st
  | Resolved found =>
      let st1 := foldl (λ s c, join s (sock_id sock) (course_room (c_id c))) st found in
      match department_of (sock_user sock) with
      | Some d => join st1 (sock_id sock) (department_room d)
      | None => st1
      end
  end.

(** [broadcastStatusUpdate] from its [await] on: the user is read back from
    the store; courses are addressed only for a student, then the
    department room. The payload is [{ userId, ...statusInfo }] with
    [statusInfo = { status, lastSeen }]. *)
Definition broadcastStatusUpdate (st : State) (uid : string) (status : jsval)
    (lastSeen : Z) : State :=
  match User_findById (store st) uid with
  | Rejected => st
  | Resolved None => st
  | Resolved (Some user) =>
      let payload :=
        JObj [("userId", JStr uid); ("status", status); ("lastSeen", JDate lastSeen)] in
      let st1 :=
        match role user with
        | student =>
            foldl (λ s cid, emit s (ToRoom (course_room cid) None) "user_status_update" payload)
                  st (enrolledCourses user)
        | _ => st
        end in
      match department_of user with
      | Some d => emit st1 (ToRoom (department_room d) None) "user_status_update" payload
      | None => st1
      end
  end.

(** [io.on('connection', ...)]: the transport has the socket connected, in
    no room of the service's yet; then the body of the handler, in which
    [joinCourseRooms(socket)] is called and not awaited. *)
Definition on_connection (st : State) (sock : Socket) (now : Z) : State :=
  let st0 := with_sids (with_live st ({[sock_id sock]} ∪ live st))
               (<[sock_id sock := ∅]> (sids st)) in
  let st1 := with_connectedUsers st0 (<[userId sock := sock_id sock]> (connectedUsers st0)) in
  let st2 := with_userSockets st1 (<[sock_id sock := userId sock]> (userSockets st1)) in
  let st3 := join st2 (sock_id sock) (user_room (userId sock)) in
  let st4 := suspend st3 (AwaitCourses sock) in
  emit st4 (ToSocket (sock_id sock)) "connected"
    (JObj [("message", JStr "Connected to USTHB App");
           ("user", user_summary sock);
           ("timestamp", JDate now)]).

Definition error_payload (message : string) : jsval :=
  JObj [("message", JStr message)].

(** [hasAccess] of the [join_course] handler. *)
Definition hasAccess (course : Course) (sock : Socket) : bool :=
  includes (enrolledStudents course) (userId sock)
  || String.eqb (c_teacher course) (userId sock)
  || bool_decide (role (sock_user sock) = admin).

(** The [join_course] handler awaits [Course.findById] first of all. *)
Definition on_join_course (st : State) (sock : Socket) (courseId : string) : State :=
  suspend st (AwaitCourse sock courseId).

(** The [join_course] handler from its [await] on. *)
Definition join_course_resumed (st : State) (sock : Socket) (courseId : string) : State :=
  match Course_findById (store st) courseId with
  | Rejected =>
      emit st (ToSocket (sock_id sock)) "error" (error_payload "Failed to join course")
  | Resolved None =>
      emit st (ToSocket (sock_id sock)) "error" (error_payload "Course not found")
  | Resolved (Some course) =>
      if hasAccess course sock then
        let st1 := join st (sock_id sock) (course_room courseId) in
        let st2 := emit st1 (ToSocket (sock_id sock)) "course_joined"
                     (JObj [("courseId", JStr courseId);
                            ("courseName", JStr (c_name course));
                            ("message", JStr ("Joined " +:+ c_name course +:+ " chat room"))]) in
        emit st2 (ToRoom (course_room courseId) (Some (sock_id sock))) "user_joined_course"
          (JObj [("user", user_summary sock); ("courseId", JStr courseId)])
      else
        emit st (ToSocket (sock_id sock)) "error"
          (error_payload "Not authorized to join this course")
  end.

Definition on_leave_course (st : State) (sock : Socket) (courseId : string) : State :=
  let st1 := leave st (sock_id sock) (course_room courseId) in
  let st2 := emit st1 (ToSocket (sock_id sock)) "course_left"
               (JObj [("courseId", JStr courseId);
                      ("message", JStr "Left course chat room")]) in
  emit st2 (ToRoom (course_room courseId) (Some (sock_id sock))) "user_left_course"
    (JObj [("user", user_summary sock); ("courseId", JStr courseId)]).

(** The three reads of [data] either all throw ([data] is [undefined] or
    [null]) or none does, so they are taken up front. The room name is
    interpolated, which can throw, before anything is emitted. *)
Definition on_typing_start (st : State) (sock : Socket) (data : jsval) : Result State :=
  recipientId ← get_prop data "recipientId";
  conversationType ← get_prop data "conversationType";
  courseId ← get_prop data "courseId";
  if truthy recipientId && strict_eq_str conversationType "private" then
    name ← to_string recipientId;
    Ok (emit st (ToRoom (user_room name) (Some (sock_id sock))) "user_typing"
          (JObj [("userId", JStr (userId sock));
                 ("userName", JStr (fullName (sock_user sock)));
                 ("conversationType", JStr "private")]))
  else if truthy courseId && strict_eq_str conversationType "course" then
    name ← to_string courseId;
    Ok (emit st (ToRoom (course_room name) (Some (sock_id sock))) "user_typing"
          (JObj [("userId", JStr (userId sock));
                 ("userName", JStr (fullName (sock_user sock)));
                 ("courseId", courseId);
                 ("conversationType", JStr "course")]))
  else Ok st.

Definition on_typing_stop (st : State) (sock : Socket) (data : jsval) : Result State :=
  recipientId ← get_prop data "recipientId";
  conversationType ← get_prop data "conversationType";
  courseId ← get_prop data "courseId";
  if truthy recipientId && strict_eq_str conversationType "private" then
    name ← to_string recipientId;
    Ok (emit st (ToRoom (user_room name) (Some (sock_id sock)))
          "user_stopped_typing"
          (JObj [("userId", JStr (userId sock));
                 ("conversationType", JStr "private")]))
  else if truthy courseId && strict_eq_str conversationType "course" then
    name ← to_string courseId;
    Ok (emit st (ToRoom (course_room name) (Some (sock_id sock)))
          "user_stopped_typing"
          (JObj [("userId", JStr (userId sock));
                 ("courseId", courseId);
                 ("conversationType", JStr "course")]))
  else Ok st.

(** [const { messageId, senderId, conversationType, courseId } = data]
    throws on [undefined] and [null] like a property read. *)
Definition on_message_read (st : State) (sock : Socket) (now : Z) (data : jsval) : Result State :=
  messageId ← get_prop data "messageId";
  senderId ← get_prop data "senderId";
  conversationType ← get_prop data "conversationType";
  courseId ← get_prop data "courseId";
  if strict_eq_str conversationType "private" && truthy senderId then
    name ← to_string senderId;
    Ok (emit st (ToRoom (user_room name) (Some (sock_id sock)))
          "message_read_receipt"
          (JObj [("messageId", messageId);
                 ("readBy", JStr (userId sock));
                 ("readAt", JDate now)]))
  else if strict_eq_str conversationType "course" && truthy courseId then
    name ← to_string courseId;
    Ok (emit st (ToRoom (course_room name) (Some (sock_id sock)))
          "message_read_receipt"
          (JObj [("messageId", messageId);
                 ("readBy", JStr (userId sock));
                 ("readAt", JDate now);
                 ("courseId", courseId)]))
  else Ok st.

(** [socket.user.onlineStatus = status] writes a field nothing reads;
    [broadcastStatusUpdate] is called with the clock read at the call. *)
Definition on_status_update (st : State) (sock : Socket) (now : Z) (status : jsval) : State :=
  suspend st (AwaitUser (userId sock) status now).

Definition on_file_shared (st : State) (sock : Socket) (now : Z) (data : jsval) : Result State :=
  courseId ← get_prop data "courseId";
  fileInfo ← get_prop data "fileInfo";
  name ← to_string courseId;
  Ok (emit st (ToRoom (course_room name) (Some (sock_id sock))) "file_shared"
        (JObj [("fileInfo", fileInfo);
               ("sharedBy", user_summary sock);
               ("courseId", courseId);
               ("timestamp", JDate now)])).

(** [const { announcement } = data] and [announcement.type] can throw; once
    [type] has been read the reads of [department] and [course] cannot. *)
Definition on_announcement_created (st : State) (data : jsval) : Result State :=
  announcement ← get_prop data "announcement";
  type ← get_prop announcement "type";
  dept ← get_prop announcement "department";
  course ← get_prop announcement "course";
  if strict_eq_str type "general" then
    Ok (emit st ToAll "new_announcement" announcement)
  else if truthy dept then
    name ← to_string dept;
    Ok (emit st (ToRoom (department_room name) None) "new_announcement" announcement)
  else if truthy course then
    name ← to_string course;
    Ok (emit st (ToRoom (course_room name) None) "new_announcement" announcement)
  else Ok st.

(** [socket.on('disconnect', ...)]: the transport has dropped the socket and
    taken it out of every room before the handler runs. [updateUserLastSeen]
    writes [lastSeen] and [onlineStatus] to the store, which nothing here
    reads. *)
Definition on_disconnect (st : State) (sock : Socket) (now : Z) : State :=
  let st0 := with_sids (with_live st (live st ∖ {[sock_id sock]}))
               (delete (sock_id sock) (sids st)) in
  let st1 := with_connectedUsers st0 (delete (userId sock) (connectedUsers st0)) in
  let st2 := with_userSockets st1 (delete (sock_id sock) (userSockets st1)) in
  suspend st2 (AwaitUser (userId sock) (JStr "offline") now).

(** [isUserOnline] and [getOnlineUsersCount]. *)
Definition isUserOnline (st : State) (uid : string) : bool :=
  bool_decide (is_Some (connectedUsers st !! uid)).

Definition getOnlineUsersCount (st : State) : nat := size (connectedUsers st).

(** ** Events and runs *)

Inductive ClientEvent :=
  | connection
  | join_course (courseId : string)
  | leave_course (courseId : string)
  | typing_start (data : jsval)
  | typing_stop (data : jsval)
  | message_read (data : jsval)
  | status_update (status : jsval)
  | file_shared (data : jsval)
  | announcement_created (data : jsval)
  | disconnect.

(** One handler invocation, up to its first [await] if it has one. *)
Definition handle (st : State) (sock : Socket) (now : Z) (ev : ClientEvent) : Result State :=
  match ev with
  | connection => Ok (on_connection st sock now)
  | join_course courseId => Ok (on_join_course st sock courseId)
  | leave_course courseId => Ok (on_leave_course st sock courseId)
  | typing_start data => on_typing_start st sock data
  | typing_stop data => on_typing_stop st sock data
  | message_read data => on_message_read st sock now data
  | status_update status => Ok (on_status_update st sock now status)
  | file_shared data => on_file_shared st sock now data
  | announcement_created data => on_announcement_created st data
  | disconnect => Ok (on_disconnect st sock now)
  end.

(** A suspended function resumes. *)
Definition resume (st : State) (p : Pending) : State :=
  match p with
  | AwaitCourses sock => joinCourseRooms st sock
  | AwaitCourse sock courseId => join_course_resumed st sock courseId
  | AwaitUser uid status lastSeen => broadcastStatusUpdate st uid status lastSeen
  end.

(** The [i]-th suspended query settles; nothing happens when there is no
    such query. *)
Definition settle (st : State) (i : nat) : State :=
  match pending st !! i with
  | Some p => resume (with_pending st (delete i (pending st))) p
  | None => st
  end.

(** What the event loop takes next: a client event on a socket, the
    settling of a suspended query, or a write to the store by the rest of
    the backend. *)
Inductive Action :=
  | Client (sock : Socket) (now : Z) (ev : ClientEvent)
  | Settle (i : nat)
  | StoreWrite (db : Store).

Definition step (st : State) (a : Action) : Result State :=
  match a with
  | Client sock now ev => handle st sock now ev
  | Settle i => Ok (settle st i)
  | StoreWrite db => Ok (with_store st db)
  end.

Fixpoint run (st : State) (acts : list Action) : Result State :=
  match acts with
  | [] => Ok st
  | a :: rest => st' ← step st a; run st' rest
  end.

Definition initial (db : Store) : State :=
  {| connectedUsers := ∅; userSockets := ∅; live := ∅; sids := ∅; store := db;
     pending := []; wire := [] |}.

(** ** Observations on a state *)

(** The emissions made between [st] and a later state [st']. *)
Definition emitted (st st' : State) : list Emission :=
  drop (length (wire st)) (wire st').

(** What of those reached [T], in emission order. *)
Definition delivered (st st' : State) (T : string) : list Emission :=
  filter (λ e, T ∈ em_to e) (emitted st st').

(** The live connections of a principal, read off [userSockets]. *)
Definition liveConnections (st : State) (uid : string) : gset string :=
  dom (filter (λ kv, kv.2 = uid) (userSockets st)).

(** The rooms [socket.rooms] holds, and those among them that are course
    rooms. *)
Definition rooms_of (st : State) (sid : string) : gset string :=
  default ∅ (sids st !! sid).

Definition is_course_room (room : string) : bool := String.prefix "course_" room.

Definition course_rooms_of (st : State) (sid : string) : gset string :=
  filter (λ r, is_course_room r = true) (rooms_of st sid).

(** The four signals of the relay. *)
Definition is_relay (ev : ClientEvent) : bool :=
  match ev with
  | typing_start _ | typing_stop _ | message_read _ | file_shared _ => true
  | _ => false
  end.

(** What a client event carries. *)
Definition payload_of (ev : ClientEvent) : jsval :=
  match ev with
  | typing_start data | typing_stop data | message_read data | file_shared data
  | announcement_created data => data
  | status_update status => status
  | join_course courseId | leave_course courseId => JStr courseId
  | connection | disconnect => JUndefined
  end.

(** The scope a conversation signal declares: the personal room of the
    principal it names under [id_key] for a private conversation, the room
    of [courseId] for a course conversation, none otherwise. *)
Definition conversation_scope (id_key : string) (data : jsval) : Result (option string) :=
  id ← get_prop data id_key;
  conversationType ← get_prop data "conversationType";
  courseId ← get_prop data "courseId";
  if truthy id && strict_eq_str conversationType "private" then
    name ← to_string id; Ok (Some (user_room name))
  else if truthy courseId && strict_eq_str conversationType "course" then
    name ← to_string courseId; Ok (Some (course_room name))
  else Ok None.

(** The scope a relay signal declares, read off its payload alone:
    [recipientId] names the principal of a private typing signal,
    [senderId] that of a private read receipt, a shared file always goes to
    the room of its [courseId]. [Ok None] when no scope is declared,
    [Threw] when the payload cannot be read or the id has no string form. *)
Definition declared_scope (ev : ClientEvent) : Result (option string) :=
  match ev with
  | typing_start data | typing_stop data => conversation_scope "recipientId" data
  | message_read data => conversation_scope "senderId" data
  | file_shared data =>
      courseId ← get_prop data "courseId";
      name ← to_string courseId;
      Ok (Some (course_room name))
  | _ => Ok None
  end.

(** The event a relay signal is passed on as. *)
Definition relay_event (ev : ClientEvent) : string :=
  match ev with
  | typing_start _ => "user_typing"
  | typing_stop _ => "user_stopped_typing"
  | message_read _ => "message_read_receipt"
  | file_shared _ => "file_shared"
  | _ => ""
  end.

(** [o.k] on a payload the service built, [None] when [o] is no object or
    has no such key. *)
Definition field (o : jsval) (k : string) : option jsval :=
  match o with
  | JObj fields => assoc k fields
  | _ => None
  end.

(** The field of a relayed signal that names who acted. *)
Definition actor_field (event : string) (payload : jsval) : option jsval :=
  if String.eqb event "user_typing" then field payload "userId"
  else if String.eqb event "user_stopped_typing" then field payload "userId"
  else if String.eqb event "message_read_receipt" then field payload "readBy"
  else if String.eqb event "file_shared" then
    sharedBy ← field payload "sharedBy"; field sharedBy "id"
  else None.

Definition actor_of (e : Emission) : option jsval :=
  actor_field (em_event e) (em_payload e).

(** The rooms a status broadcast for the stored user [u] addresses, in
    emission order. *)
Definition status_targets (u : User) : list string :=
  match role u with
  | student => course_room <$> enrolledCourses u
  | _ => []
  end ++
  match department_of u with
  | Some d => [department_room d]
  | None => []
  end.

Definition status_emission (st : State) (uid : string) (status : jsval) (now : Z)
    (room : string) : Emission :=
  {| em_scope := ToRoom room None;
     em_event := "user_status_update";
     em_payload := JObj [("userId", JStr uid); ("status", status); ("lastSeen", JDate now)];
     em_to := recipients st (ToRoom room None) |}.

Definition is_offline_update (uid : string) (e : Emission) : bool :=
  String.eqb (em_event e) "user_status_update"
  && match field (em_payload e) "userId" with
     | Some (JStr s) => String.eqb s uid
     | _ => false
     end
  && match field (em_payload e) "status" with
     | Some (JStr s) => String.eqb s "offline"
     | _ => false
     end.

(** Offline status emissions about [uid] made so far. *)
Definition offline_updates (st : State) (uid : string) : list Emission :=
  filter (λ e, is_offline_update uid e = true) (wire st).

(** What a function that only emits, and one that only joins rooms, leave
    unchanged. *)
Definition only_wire (st st' : State) : Prop :=
  connectedUsers st' = connectedUsers st ∧ userSockets st' = userSockets st
  ∧ live st' = live st ∧ sids st' = sids st ∧ store st' = store st
  ∧ pending st' = pending st.

Definition only_sids (st st' : State) : Prop :=
  connectedUsers st' = connectedUsers st ∧ userSockets st' = userSockets st
  ∧ live st' = live st ∧ store st' = store st ∧ pending st' = pending st
  ∧ wire st' = wire st.

(** ** One connection per principal *)

(** The two maps mirror each other: what holds as long as no principal has
    two connections at once. *)
Definition paired (st : State) : Prop :=
  ∀ uid sid, connectedUsers st !! uid = Some sid ↔ userSockets st !! sid = Some uid.

(** An action a single-device client population can produce in [st]: a
    connect comes on a fresh socket for a principal with no connection, any
    other client event comes from a registered socket. *)
Definition single_device_ok (st : State) (a : Action) : Prop :=
  match a with
  | Client sock _ connection =>
      userSockets st !! sock_id sock = None ∧ connectedUsers st !! userId sock = None
  | Client sock _ _ => userSockets st !! sock_id sock = Some (userId sock)
  | _ => True
  end.

Fixpoint single_device_run (st : State) (acts : list Action) : Prop :=
  match acts with
  | [] => True
  | a :: rest =>
      single_device_ok st a
      ∧ match step st a with
        | Ok st' => single_device_run st' rest
        | Threw _ => True
        end
  end.

(** ** A small campus, for the concrete runs below *)

Module Campus.

Definition alice : User :=
  {| u_id := "u1"; firstName := "Alice"; lastName := "Amrani"; role := student;
     department := Some "CS"; enrolledCourses := ["c1"; "c2"]; isActive := true |}.

Definition bob : User :=
  {| u_id := "u2"; firstName := "Bob"; lastName := "Benali"; role := student;
     department := Some "Networks"; enrolledCourses := []; isActive := true |}.

Definition tina : User :=
  {| u_id := "t1"; firstName := "Tina"; lastName := "Touati"; role := teacher;
     department := Some "CS"; enrolledCourses := []; isActive := true |}.

Definition root : User :=
  {| u_id := "a1"; firstName := "Root"; lastName := "Rahmani"; role := admin;
     department := None; enrolledCourses := []; isActive := true |}.

Definition algo : Course :=
  {| c_id := "c1"; c_name := "Algorithms"; c_teacher := "t1"; enrolledStudents := ["u1"] |}.

Definition logic : Course :=
  {| c_id := "c2"; c_name := "Logic"; c_teacher := "t2"; enrolledStudents := ["u1"] |}.

Definition compilers : Course :=
  {| c_id := "c3"; c_name := "Compilers"; c_teacher := "t1"; enrolledStudents := [] |}.

Definition db : Store :=
  {| users := [alice; bob; tina; root];
     courses := [algo; logic; compilers];
     rejects := λ _, false |}.

(** Alice on two devices, and one socket for each of the others. *)
Definition phone : Socket := {| sock_id := "s1"; sock_user := alice |}.
Definition laptop : Socket := {| sock_id := "s2"; sock_user := alice |}.
Definition bob_sock : Socket := {| sock_id := "s3"; sock_user := bob |}.
Definition tina_sock : Socket := {| sock_id := "s4"; sock_user := tina |}.
Definition root_sock : Socket := {| sock_id := "s5"; sock_user := root |}.

(** A typing payload for a course conversation. *)
Definition typing_in (cid : string) : jsval :=
  JObj [("courseId", JStr cid); ("conversationType", JStr "course")].

(** Alice and Bob connected, their room queries settled. *)
Definition lobby : State :=
  settle (on_connection (settle (on_connection (initial db) phone 1) 0) bob_sock 2) 0.

End Campus.

(** ** The handshake middleware ([io.use]) *)

(** What the middleware reads of a handshake: the id the transport gave the
    socket, [handshake.auth.token] ([handshake.auth] is an object, empty
    when the client sent none) and the [authorization] header. *)
Record Handshake := {
  hs_socket_id : string;
  auth_token : jsval;
  authorization : option string
}.

Fixpoint drop_chars (n : nat) (s : string) : string :=
  match n, s with
  | S n', String _ rest => drop_chars n' rest
  | _, _ => s
  end.

(** [s.replace(pat, '')] for a string pattern: the first occurrence of
    [pat] is cut out, wherever it is. *)
Fixpoint remove_first (pat s : string) : string :=
  if String.prefix pat s then drop_chars (String.length pat) s
  else match s with
       | EmptyString => EmptyString
       | String c rest => String c (remove_first pat rest)
       end.

(** [handshake.auth.token || headers.authorization?.replace('Bearer ', '')]. *)
Definition handshake_token (hs : Handshake) : jsval :=
  if truthy (auth_token hs) then auth_token hs
  else match authorization hs with
       | Some header => JStr (remove_first "Bearer " header)
       | None => JUndefined
       end.

Inductive AuthResult :=
  | Accepted (sock : Socket)
  | Refused (message : string).

(** The middleware. [verify] stands for [jwt.verify(token, JWT_SECRET)]
    followed by the read of [decoded.userId]: the user id the token was
    signed for, [None] when the library throws. The store is the one the
    awaited [User.findById] is answered from. *)
Definition authenticate (verify : jsval → option string) (db : Store) (hs : Handshake)
    : AuthResult :=
  let token := handshake_token hs in
  if negb (truthy token) then Refused "Authentication error: No token provided"
  else match verify token with
       | None => Refused "Authentication error"
       | Some uid =>
           match User_findById db uid with
           | Rejected => Refused "Authentication error"
           | Resolved None => Refused "Authentication error: Invalid user"
           | Resolved (Some user) =>
               if isActive user
               then Accepted {| sock_id := hs_socket_id hs; sock_user := user |}
               else Refused "Authentication error: Invalid user"
           end
       end.

(** ** The [grade_updated] handler *)

(** The own enumerable properties [{ ...v }] copies: those of an object, the
    indexed elements of an array, the indexed characters of a string (one
    per character, for strings of one code unit per character), none
    otherwise. *)
Definition own_props (v : jsval) : list (string * jsval) :=
  match v with
  | JObj fields => fields
  | JArr items => imap (λ i x, (pretty i, x)) items
  | JStr s => imap (λ i c, (pretty i, JStr (String c EmptyString))) (String.list_ascii_of_string s)
  | _ => []
  end.

(** [o[k] = v] on a property list: the binding in force is replaced where it
    stands, a new key goes last. *)
Fixpoint set_prop (k : string) (v : jsval) (fields : list (string * jsval))
    : list (string * jsval) :=
  match fields with
  | [] => [(k, v)]
  | (k', v') :: rest =>
      if String.eqb k k' then (k', v) :: rest else (k', v') :: set_prop k v rest
  end.

(** [socket.on('grade_updated', ...)]: [{ ...gradeInfo, timestamp: new Date() }]
    to the personal room of [studentId]. *)
Definition on_grade_updated (st : State) (sock : Socket) (now : Z) (data : jsval)
    : Result State :=
  studentId ← get_prop data "studentId";
  gradeInfo ← get_prop data "gradeInfo";
  name ← to_string studentId;
  Ok (emit st (ToRoom (user_room name) (Some (sock_id sock))) "grade_updated"
        (JObj (set_prop "timestamp" (JDate now) (own_props gradeInfo)))).

(** ** The exported functions *)

(** The module before and after [initializeSocket]: [io] is [undefined]
    until then, and no handler has run, so the maps are empty. *)
Definition emitToUser (io : option State) (uid event : string) (data : jsval)
    : bool * option State :=
  match io with
  | Some st =>
      match connectedUsers st !! uid with
      | Some socketId =>
          if negb (String.eqb socketId "")
          then (true, Some (emit st (ToRoom (user_room uid) None) event data))
          else (false, io)
      | None => (false, io)
      end
  | None => (false, io)
  end.

Definition emitToCourse (io : option State) (courseId event : string) (data : jsval)
    : bool * option State :=
  match io with
  | Some st => (true, Some (emit st (ToRoom (course_room courseId) None) event data))
  | None => (false, io)
  end.

Definition emitToDepartment (io : option State) (dept event : string) (data : jsval)
    : bool * option State :=
  match io with
  | Some st => (true, Some (emit st (ToRoom (department_room dept) None) event data))
  | None => (false, io)
  end.

Definition broadcastToAll (io : option State) (event : string) (data : jsval)
    : bool * option State :=
  match io with
  | Some st => (true, Some (emit st ToAll event data))
  | None => (false, io)
  end.

(** The user ids [getCourseOnlineUsers] returns, as a set: the array lists
    them in the adapter's order, once per socket, which the room table
    here does not keep. An id is listed for a socket id of the room that
    [userSockets] maps to a non-empty user id. *)
Definition getCourseOnlineUsers (io : option State) (courseId : string) : gset string :=
  match io with
  | Some st =>
      set_omap (λ sid, match userSockets st !! sid with
                       | Some uid => if String.eqb uid "" then None else Some uid
                       | None => None
                       end)
               (room_members st (course_room courseId))
  | None => ∅
  end.

(** ** Reachable states *)

(** Client events arrive in order: a connect comes on a socket id that is
    not registered, every other client event from a registered socket. A
    principal may hold several connections. *)
Definition orderly (st : State) (a : Action) : Prop :=
  match a with
  | Client sock _ connection => userSockets st !! sock_id sock = None
  | Client sock _ _ => userSockets st !! sock_id sock = Some (userId sock)
  | _ => True
  end.

Fixpoint orderly_run (st : State) (acts : list Action) : Prop :=
  match acts with
  | [] => True
  | a :: rest =>
      orderly st a
      ∧ match step st a with
        | Ok st' => orderly_run st' rest
        | Threw _ => True
        end
  end.

(** Every presence entry points at a socket registered for that user. *)
Definition registered (st : State) : Prop :=
  ∀ uid sid, connectedUsers st !! uid = Some sid → userSockets st !! sid = Some uid.

(** How the socket [sock] can come to be in [room] beside its personal
    room: [room] is the room of a course of the store for which this
    socket passes [hasAccess], or the room of its user's department. *)
Definition granted (db : Store) (sock : Socket) (room : string) : Prop :=
  (∃ course, course ∈ courses db ∧ room = course_room (c_id course)
             ∧ hasAccess course sock = true)
  ∨ (∃ d, department_of (sock_user sock) = Some d ∧ room = department_room d).

(** A socket id names one socket for as long as the service runs: the
    client events on socket id [sid] come from the socket [who sid]. *)
Definition from_socket (who : string → Socket) (a : Action) : Prop :=
  match a with
  | Client sock _ _ => sock = who (sock_id sock)
  | _ => True
  end.

(** The socket a suspended function works for. *)
Definition pending_socket (p : Pending) : option Socket :=
  match p with
  | AwaitCourses sock | AwaitCourse sock _ => Some sock
  | AwaitUser _ _ _ => None
  end.

(** The socket on whose behalf a step runs. *)
Definition actor (st : State) (a : Action) : option Socket :=
  match a with
  | Client sock _ _ => Some sock
  | Settle i => p ← pending st !! i; pending_socket p
  | StoreWrite _ => None
  end.

Definition is_store_write (a : Action) : bool :=
  match a with
  | StoreWrite _ => true
  | _ => false
  end.

(** The rooms [joinCourseRooms] adds for [sock] against the store [db]: none
    when its query rejects. *)
Definition default_rooms (db : Store) (sock : Socket) : gset string :=
  match Course_find db
          match role (sock_user sock) with
          | student => Enrolled (userId sock)
          | teacher => TeacherOrEnrolled (userId sock)
          | admin => AllCourses
          end with
  | Rejected => ∅
  | Resolved found =>
      list_to_set ((λ c, course_room (c_id c)) <$> found)
      ∪ match department_of (sock_user sock) with
        | Some d => {[department_room d]}
        | None => ∅
        end
  end.

(** ** Numbers as they print *)

(** Integers a double holds exactly print in plain decimal; past [2^53]
    the nearest double is printed, and from [10^21] in exponent
    notation. *)
Lemma number_to_string_samples :
  number_to_string <$> [0; 17; -5; 9007199254740993; 2 ^ 60; 10 ^ 21; 10 ^ 23; 2 ^ 1024]%Z
  = ["0"; "17"; "-5"; "9007199254740992"; "1152921504606847000"; "1e+21"; "1e+23";
     "Infinity"].
Proof. vm_compute. reflexivity. Qed.

(** An object with a [toString] property of its own has no string form,
    alone or inside an array. *)
Lemma to_string_own_toString (fields : list (string * jsval)) (v : jsval) :
  assoc "toString" fields = Some v →
  to_string (JObj fields) = Threw "TypeError"
  ∧ to_string (JArr [JStr "a"; JObj fields]) = Threw "TypeError".
Proof. intros H. simpl. by rewrite H. Qed.

(** ** What each primitive leaves alone *)

Lemma emitted_app (st st' : State) (new : list Emission) :
  wire st' = wire st ++ new → emitted st st' = new.
Proof. intros H. unfold emitted. rewrite H. apply drop_app_length. Qed.

Lemma emitted_refl (st : State) : emitted st st = [].
Proof. unfold emitted. apply drop_all. Qed.

Lemma emitted_emit (st : State) (sc : Scope) (event : string) (payload : jsval) :
  emitted st (emit st sc event payload)
  = [{| em_scope := sc; em_event := event; em_payload := payload;
        em_to := recipients st sc |}].
Proof. by apply emitted_app. Qed.

Lemma wire_emit (st : State) (sc : Scope) (event : string) (payload : jsval) :
  wire (emit st sc event payload)
  = wire st ++ [{| em_scope := sc; em_event := event; em_payload := payload;
                   em_to := recipients st sc |}].
Proof. reflexivity. Qed.

Lemma recipients_frame (st st' : State) (sc : Scope) :
  sids st' = sids st → live st' = live st → recipients st' sc = recipients st sc.
Proof.
  intros Hs Hl. destruct sc as [sid|room [sender|]|]; simpl;
    unfold room_members; by rewrite ?Hs, ?Hl.
Qed.

Lemma only_wire_refl (st : State) : only_wire st st.
Proof. by repeat split. Qed.

Lemma only_sids_refl (st : State) : only_sids st st.
Proof. by repeat split. Qed.

Lemma foldl_emit_rooms (st : State) (event : string) (payload : jsval) (rooms : list string) :
  let st' := foldl (λ s r, emit s (ToRoom r None) event payload) st rooms in
  wire st' = wire st ++
    ((λ r, {| em_scope := ToRoom r None; em_event := event; em_payload := payload;
              em_to := recipients st (ToRoom r None) |}) <$> rooms)
  ∧ only_wire st st'.
Proof.
  revert st. induction rooms as [|r rooms IH]; intros st; simpl.
  - split; [by rewrite app_nil_r | apply only_wire_refl].
  - destruct (IH (emit st (ToRoom r None) event payload)) as (Hw & Hframe).
    split; [|exact Hframe].
    rewrite Hw. simpl. by rewrite <- app_assoc.
Qed.

Lemma foldl_emit_courses (st : State) (event : string) (payload : jsval) (cids : list string) :
  foldl (λ s cid, emit s (ToRoom (course_room cid) None) event payload) st cids
  = foldl (λ s r, emit s (ToRoom r None) event payload) st (course_room <$> cids).
Proof. revert st. induction cids as [|c cids IH]; intros st; simpl; [done|apply IH]. Qed.

(** The emissions of a status broadcast, when the store returns the user. *)
Lemma broadcastStatusUpdate_wire
    (st : State) (uid : string) (status : jsval) (now : Z) (u : User) :
  User_findById (store st) uid = Resolved (Some u) →
  wire (broadcastStatusUpdate st uid status now)
  = wire st ++ (status_emission st uid status now <$> status_targets u).
Proof.
  intros Hu. unfold broadcastStatusUpdate. rewrite Hu.
  unfold status_targets, status_emission.
  set (payload := JObj _).
  assert (∃ rooms,
    match role u with
    | student => foldl (λ s cid, emit s (ToRoom (course_room cid) None)
                                   "user_status_update" payload) st (enrolledCourses u)
    | _ => st
    end = foldl (λ s r, emit s (ToRoom r None) "user_status_update" payload) st rooms
    ∧ match role u with student => course_room <$> enrolledCourses u | _ => [] end = rooms)
    as (rooms & -> & ->).
  { destruct (role u);
      [eexists; split; [apply foldl_emit_courses | done] | by exists [] ..]. }
  destruct (foldl_emit_rooms st "user_status_update" payload rooms)
    as (Hw & _ & _ & Hl & Hs & _).
  destruct (department_of u) as [d|].
  - rewrite wire_emit, Hw, (recipients_frame st _ (ToRoom (department_room d) None) Hs Hl).
    by rewrite fmap_app, <- app_assoc.
  - by rewrite Hw, app_nil_r.
Qed.

Lemma broadcastStatusUpdate_frame (st : State) (uid : string) (status : jsval) (now : Z) :
  let st' := broadcastStatusUpdate st uid status now in
  (∃ new, wire st' = wire st ++ new) ∧ only_wire st st'.
Proof.
  unfold broadcastStatusUpdate.
  destruct (User_findById (store st) uid) as [[u|]|]; simpl;
    try (split; [exists []; by rewrite app_nil_r | apply only_wire_refl]).
  set (payload := JObj _).
  assert (∃ rooms,
    match role u with
    | student => foldl (λ s cid, emit s (ToRoom (course_room cid) None)
                                   "user_status_update" payload) st (enrolledCourses u)
    | _ => st
    end = foldl (λ s r, emit s (ToRoom r None) "user_status_update" payload) st rooms)
    as (rooms & ->).
  { destruct (role u); [eexists; apply foldl_emit_courses | by exists [] ..]. }
  destruct (foldl_emit_rooms st "user_status_update" payload rooms) as (Hw & Hframe).
  destruct (department_of u) as [d|]; simpl; rewrite ?Hw;
    (split; [|exact Hframe]); eexists; [by rewrite <- app_assoc | done].
Qed.

(** [socket.join] touches the table of rooms only, and only for a
    connected socket. *)
Lemma join_live (st : State) (sid room : string) :
  sid ∈ live st →
  join st sid room = with_sids st (<[sid := {[room]} ∪ default ∅ (sids st !! sid)]> (sids st)).
Proof. intros H. unfold join. by rewrite decide_True. Qed.

Lemma join_closed (st : State) (sid room : string) :
  sid ∉ live st → join st sid room = st.
Proof. intros H. unfold join. by rewrite decide_False. Qed.

Lemma join_frame (st : State) (sid room : string) : only_sids st (join st sid room).
Proof. unfold join. case_decide; [by unfold only_sids | apply only_sids_refl]. Qed.

Lemma connectedUsers_join (st : State) (sid room : string) :
  connectedUsers (join st sid room) = connectedUsers st.
Proof. apply join_frame. Qed.

Lemma userSockets_join (st : State) (sid room : string) :
  userSockets (join st sid room) = userSockets st.
Proof. apply join_frame. Qed.

Lemma live_join (st : State) (sid room : string) : live (join st sid room) = live st.
Proof. apply join_frame. Qed.

Lemma store_join (st : State) (sid room : string) : store (join st sid room) = store st.
Proof. apply join_frame. Qed.

Lemma pending_join (st : State) (sid room : string) : pending (join st sid room) = pending st.
Proof. apply join_frame. Qed.

Lemma wire_join (st : State) (sid room : string) : wire (join st sid room) = wire st.
Proof. apply join_frame. Qed.

Arguments join : simpl never.
Global Opaque join.

(** Projections pushed through [join]s. *)
Ltac through_join :=
  repeat (simpl;
          rewrite ?connectedUsers_join, ?userSockets_join, ?live_join, ?store_join,
                  ?pending_join, ?wire_join).

Lemma only_sids_trans (st1 st2 st3 : State) :
  only_sids st1 st2 → only_sids st2 st3 → only_sids st1 st3.
Proof.
  unfold only_sids. intros (? & ? & ? & ? & ? & ?) (? & ? & ? & ? & ? & ?).
  repeat split; congruence.
Qed.

Lemma foldl_join_frame (st : State) (sid : string) (rooms : list string) :
  only_sids st (foldl (λ s r, join s sid r) st rooms).
Proof.
  revert st. induction rooms as [|r rooms IH]; intros st; simpl; [apply only_sids_refl|].
  eapply only_sids_trans; [apply join_frame | apply IH].
Qed.

Lemma foldl_join_courses (st : State) (sid : string) (cs : list Course) :
  foldl (λ s c, join s sid (course_room (c_id c))) st cs
  = foldl (λ s r, join s sid r) st ((λ c, course_room (c_id c)) <$> cs).
Proof. revert st. induction cs as [|c cs IH]; intros st; simpl; [done|apply IH]. Qed.

Lemma joinCourseRooms_frame (st : State) (sock : Socket) :
  only_sids st (joinCourseRooms st sock).
Proof.
  unfold joinCourseRooms.
  destruct (Course_find _ _) as [found|]; [|apply only_sids_refl].
  rewrite foldl_join_courses.
  destruct (department_of _);
    [eapply only_sids_trans; [apply foldl_join_frame | apply join_frame]
    |apply foldl_join_frame].
Qed.

Lemma join_course_resumed_frame (st : State) (sock : Socket) (courseId : string) :
  let st' := join_course_resumed st sock courseId in
  (∃ new, wire st' = wire st ++ new)
  ∧ connectedUsers st' = connectedUsers st ∧ userSockets st' = userSockets st
  ∧ live st' = live st ∧ store st' = store st ∧ pending st' = pending st.
Proof.
  unfold join_course_resumed.
  destruct (Course_findById _ _) as [[course|]|]; [destruct (hasAccess _ _)|..];
    through_join; (split; [|done]); try by eexists.
  eexists. by rewrite <- app_assoc.
Qed.

(** ** Rooms, socket by socket *)

Lemma elem_of_room_members (st : State) (room T : string) :
  T ∈ room_members st room ↔ room ∈ rooms_of st T.
Proof.
  unfold room_members, rooms_of. rewrite elem_of_dom. split.
  - intros [rs H]. apply map_lookup_filter_Some in H as [-> H2]. done.
  - intros H. destruct (sids st !! T) as [rs|] eqn:Hrs; simpl in H; [|set_solver].
    exists rs. by apply map_lookup_filter_Some.
Qed.

Lemma recipients_ext (st st' : State) (sc : Scope) :
  (∀ sid, rooms_of st' sid = rooms_of st sid) → live st' = live st →
  recipients st' sc = recipients st sc.
Proof.
  intros Hr Hl.
  assert (∀ room, room_members st' room = room_members st room) as Hm.
  { intros room. apply set_eq. intros T. by rewrite !elem_of_room_members, Hr. }
  destruct sc as [sid|room [sender|]|]; simpl; by rewrite ?Hm, ?Hl.
Qed.

Lemma recipients_live (st : State) (sc : Scope) : recipients st sc ⊆ live st.
Proof. destruct sc as [sid|room [sender|]|]; simpl; set_solver. Qed.

Lemma rooms_of_join (st : State) (sid room sid' : string) :
  rooms_of (join st sid room) sid'
  = if decide (sid' = sid ∧ sid ∈ live st)
    then {[room]} ∪ rooms_of st sid else rooms_of st sid'.
Proof.
  destruct (decide (sid ∈ live st)) as [Hl|Hl].
  - rewrite join_live by done. unfold rooms_of. simpl. case_decide as H.
    + destruct H as [-> _]. by rewrite lookup_insert_eq.
    + rewrite lookup_insert_ne; [done|]. intros <-. by apply H.
  - rewrite join_closed by done. rewrite decide_False; [done|]. by intros [_ ?].
Qed.

Lemma rooms_of_leave (st : State) (sid room sid' : string) :
  rooms_of (leave st sid room) sid'
  = if decide (sid' = sid) then rooms_of st sid ∖ {[room]} else rooms_of st sid'.
Proof.
  unfold rooms_of. simpl. destruct (decide (sid' = sid)) as [->|Hne].
  - rewrite lookup_alter_eq. destruct (sids st !! sid); simpl; [done|set_solver].
  - by rewrite lookup_alter_ne.
Qed.

Lemma rooms_of_foldl_join (st : State) (sid : string) (rooms : list string) (sid' : string) :
  rooms_of (foldl (λ s r, join s sid r) st rooms) sid'
  = if decide (sid' = sid ∧ sid ∈ live st)
    then list_to_set rooms ∪ rooms_of st sid else rooms_of st sid'.
Proof.
  revert st. induction rooms as [|r rooms IH]; intros st; simpl.
  - case_decide as H; [destruct H as [-> _]|]; set_solver.
  - rewrite IH, !rooms_of_join, live_join.
    repeat case_decide; try tauto; try set_solver.
Qed.

Lemma rooms_of_joinCourseRooms (st : State) (sock : Socket) (sid' : string) :
  rooms_of (joinCourseRooms st sock) sid'
  = if decide (sid' = sock_id sock ∧ sock_id sock ∈ live st)
    then default_rooms (store st) sock ∪ rooms_of st (sock_id sock)
    else rooms_of st sid'.
Proof.
  unfold joinCourseRooms, default_rooms.
  destruct (Course_find _ _) as [found|].
  - rewrite foldl_join_courses.
    destruct (department_of (sock_user sock)) as [d|];
      rewrite ?rooms_of_join, !rooms_of_foldl_join;
      rewrite ?(proj1 (proj2 (proj2 (foldl_join_frame st (sock_id sock) _))));
      repeat case_decide; try tauto; try set_solver.
  - case_decide as H; [destruct H as [-> _]|]; set_solver.
Qed.

Lemma rooms_of_join_course_resumed (st : State) (sock : Socket) (courseId sid' : string) :
  rooms_of (join_course_resumed st sock courseId) sid'
  = match Course_findById (store st) courseId with
    | Resolved (Some course) =>
        if hasAccess course sock then
          if decide (sid' = sock_id sock ∧ sock_id sock ∈ live st)
          then {[course_room courseId]} ∪ rooms_of st (sock_id sock)
          else rooms_of st sid'
        else rooms_of st sid'
    | _ => rooms_of st sid'
    end.
Proof.
  unfold join_course_resumed.
  destruct (Course_findById _ _) as [[course|]|]; [destruct (hasAccess _ _)|..]; try done.
  apply (rooms_of_join st (sock_id sock) (course_room courseId) sid').
Qed.

Lemma rooms_of_on_connection (st : State) (sock : Socket) (now : Z) (sid' : string) :
  rooms_of (on_connection st sock now) sid'
  = if decide (sid' = sock_id sock) then {[user_room (userId sock)]} else rooms_of st sid'.
Proof.
  unfold on_connection. cbv zeta.
  match goal with
  | |- rooms_of (emit (suspend ?j _) _ _ _) _ = ?rhs => change (rooms_of j sid' = rhs)
  end.
  rewrite rooms_of_join. unfold rooms_of. simpl.
  destruct (decide (sid' = sock_id sock)) as [->|Hne].
  - rewrite decide_True by set_solver. rewrite lookup_insert_eq. simpl. set_solver.
  - rewrite decide_False by tauto. by rewrite lookup_insert_ne.
Qed.

Lemma rooms_of_on_disconnect (st : State) (sock : Socket) (now : Z) (sid' : string) :
  rooms_of (on_disconnect st sock now) sid'
  = if decide (sid' = sock_id sock) then ∅ else rooms_of st sid'.
Proof.
  unfold rooms_of. simpl. destruct (decide (sid' = sock_id sock)) as [->|Hne].
  - by rewrite lookup_delete_eq.
  - by rewrite lookup_delete_ne.
Qed.

(** What the connection handler leaves in the two maps and the set of
    connected sockets. *)
Lemma on_connection_maps (st : State) (sock : Socket) (now : Z) :
  connectedUsers (on_connection st sock now) = <[userId sock := sock_id sock]> (connectedUsers st)
  ∧ userSockets (on_connection st sock now) = <[sock_id sock := userId sock]> (userSockets st)
  ∧ live (on_connection st sock now) = {[sock_id sock]} ∪ live st
  ∧ store (on_connection st sock now) = store st
  ∧ pending (on_connection st sock now) = pending st ++ [AwaitCourses sock].
Proof. unfold on_connection. by through_join. Qed.

Lemma on_connection_wire (st : State) (sock : Socket) (now : Z) :
  wire (on_connection st sock now)
  = wire st ++ [{| em_scope := ToSocket (sock_id sock); em_event := "connected";
                   em_payload := JObj [("message", JStr "Connected to USTHB App");
                                       ("user", user_summary sock);
                                       ("timestamp", JDate now)];
                   em_to := {[sock_id sock]} ∩ ({[sock_id sock]} ∪ live st) |}].
Proof. unfold on_connection. by through_join. Qed.

Lemma on_disconnect_maps (st : State) (sock : Socket) (now : Z) :
  connectedUsers (on_disconnect st sock now) = delete (userId sock) (connectedUsers st)
  ∧ userSockets (on_disconnect st sock now) = delete (sock_id sock) (userSockets st)
  ∧ live (on_disconnect st sock now) = live st ∖ {[sock_id sock]}
  ∧ store (on_disconnect st sock now) = store st
  ∧ pending (on_disconnect st sock now)
    = pending st ++ [AwaitUser (userId sock) (JStr "offline") now]
  ∧ wire (on_disconnect st sock now) = wire st.
Proof. done. Qed.

(** ** The relay handlers, case by case *)

Ltac relay_cases :=
  repeat (cbn [handle on_typing_start on_typing_stop on_message_read on_file_shared
               declared_scope conversation_scope relay_event get_prop mbind Result_bind andb];
          match goal with
          | |- context [truthy ?v] => destruct (truthy v) eqn:?
          | |- context [strict_eq_str ?v ?l] => destruct (strict_eq_str v l) eqn:?
          | |- context [to_string ?v] => destruct (to_string v) eqn:?
          end).

(** A relay handler does what the declared scope says and nothing more: it
    throws where the scope cannot be read, does nothing where none is
    declared, and otherwise makes one emission through [socket.to(room)]
    whose payload names the socket's own user as the actor. *)
Lemma relay_routed (st : State) (sock : Socket) (now : Z) (ev : ClientEvent) :
  is_relay ev = true →
  match declared_scope ev with
  | Threw err => handle st sock now ev = Threw err
  | Ok None => handle st sock now ev = Ok st
  | Ok (Some room) =>
      ∃ payload,
        handle st sock now ev
        = Ok (emit st (ToRoom room (Some (sock_id sock))) (relay_event ev) payload)
        ∧ actor_field (relay_event ev) payload = Some (JStr (userId sock))
  end.
Proof.
  intros Hrel.
  destruct ev as [| | |data|data|data| |data| |]; try discriminate Hrel;
    destruct data; relay_cases; try reflexivity; eexists; split; reflexivity.
Qed.

(** No relay handler reads the store. *)
Lemma relay_ignores_store (st : State) (sock : Socket) (now : Z) (ev : ClientEvent)
    (db : Store) :
  is_relay ev = true →
  match handle st sock now ev, handle (with_store st db) sock now ev with
  | Ok st1, Ok st2 => wire st2 = wire st1
  | Threw err1, Threw err2 => err1 = err2
  | _, _ => False
  end.
Proof.
  intros Hrel.
  destruct ev as [| | |data|data|data| |data| |]; try discriminate Hrel;
    destruct data; relay_cases; reflexivity.
Qed.

Lemma relay_event_not_error (ev : ClientEvent) : is_relay ev = true → relay_event ev ≠ "error".
Proof. by destruct ev. Qed.

(** A relay event that does not throw either changes nothing or makes one
    emission through [socket.to(room)]. *)
Lemma relay_handle (st : State) (sock : Socket) (now : Z) (ev : ClientEvent) (st' : State) :
  is_relay ev = true →
  handle st sock now ev = Ok st' →
  st' = st ∨
  ∃ room event payload,
    st' = emit st (ToRoom room (Some (sock_id sock))) event payload
    ∧ event ≠ "error"
    ∧ actor_field event payload = Some (JStr (userId sock)).
Proof.
  intros Hrel H. pose proof (relay_routed st sock now ev Hrel) as Hr.
  destruct (declared_scope ev) as [[room|]|err].
  - destruct Hr as (payload & Hh & Hact). rewrite Hh in H. injection H as <-.
    right. exists room, (relay_event ev), payload.
    split; [done|]. split; [by apply relay_event_not_error | done].
  - rewrite Hr in H. injection H as <-. by left.
  - rewrite Hr in H. discriminate H.
Qed.

Lemma announcement_created_frame (st : State) (data : jsval) (st' : State) :
  on_announcement_created st data = Ok st' →
  (∃ new, wire st' = wire st ++ new) ∧ only_wire st st'.
Proof.
  intros H. unfold on_announcement_created in H.
  destruct data as [| | | | | | |fs]; try discriminate H.
  all: cbn [get_prop mbind Result_bind] in H.
  all: try (destruct (default JUndefined (assoc "announcement" fs))
              as [| | | | | | |fa]; try discriminate H;
            cbn [get_prop mbind Result_bind] in H).
  all: repeat match type of H with
              | context [if ?b then _ else _] => destruct b eqn:?
              | context [to_string ?v] => destruct (to_string v) eqn:?
              end;
       cbn [mbind Result_bind] in H;
       try discriminate H; injection H as <-;
       (split; [first [by eexists | exists []; by rewrite app_nil_r]
               | by unfold only_wire]).
Qed.

(** ** The wire only grows *)

Lemma handle_wire (st : State) (sock : Socket) (now : Z) (ev : ClientEvent) (st' : State) :
  handle st sock now ev = Ok st' →
  ∃ new, wire st' = wire st ++ new.
Proof.
  intros H.
  destruct (is_relay ev) eqn:Hrel.
  { destruct (relay_handle _ _ _ _ _ Hrel H) as [->|(room & event & payload & -> & _)].
    - exists []. by rewrite app_nil_r.
    - by eexists. }
  destruct ev as [|courseId|courseId| | | |status| |data|]; try discriminate Hrel;
    simpl in H; try (injection H as <-).
  - unfold on_connection. through_join. by eexists.
  - exists []. by rewrite app_nil_r.
  - unfold on_leave_course. simpl. eexists. by rewrite <- app_assoc.
  - exists []. by rewrite app_nil_r.
  - by apply announcement_created_frame in H as [? _].
  - exists []. by rewrite app_nil_r.
Qed.

Lemma resume_wire (st : State) (p : Pending) :
  ∃ new, wire (resume st p) = wire st ++ new.
Proof.
  destruct p as [sock|sock courseId|uid status lastSeen]; simpl.
  - destruct (joinCourseRooms_frame st sock) as (_ & _ & _ & _ & _ & ->).
    exists []. by rewrite app_nil_r.
  - apply join_course_resumed_frame.
  - apply broadcastStatusUpdate_frame.
Qed.

Lemma step_wire (st : State) (a : Action) (st' : State) :
  step st a = Ok st' →
  ∃ new, wire st' = wire st ++ new.
Proof.
  destruct a as [sock now ev|i|db]; simpl; intros H.
  - by eapply handle_wire.
  - injection H as <-. unfold settle.
    destruct (pending st !! i) as [p|]; [|exists []; by rewrite app_nil_r].
    apply (resume_wire (with_pending st _) p).
  - injection H as <-. exists []. by rewrite app_nil_r.
Qed.

Lemma run_wire (acts : list Action) (st st' : State) :
  run st acts = Ok st' →
  ∃ new, wire st' = wire st ++ new.
Proof.
  revert st. induction acts as [|a acts IH]; intros st H; simpl in H.
  - injection H as <-. exists []. by rewrite app_nil_r.
  - destruct (step st a) as [st1|err] eqn:Hstep; [|discriminate H].
    cbn [mbind Result_bind] in H.
    destruct (step_wire _ _ _ Hstep) as [new1 H1].
    destruct (IH _ H) as [new2 H2].
    exists (new1 ++ new2). by rewrite H2, H1, <- app_assoc.
Qed.

(** ** The connection maps *)

Lemma elem_of_liveConnections (st : State) (uid sid : string) :
  sid ∈ liveConnections st uid ↔ userSockets st !! sid = Some uid.
Proof.
  unfold liveConnections. rewrite elem_of_dom. split.
  - intros [x H]. apply map_lookup_filter_Some in H as [H1 H2]. simpl in H2. by subst.
  - intros H. exists uid. by apply map_lookup_filter_Some.
Qed.

(** Only the connect and disconnect handlers touch the two maps. *)
Lemma step_maps (st : State) (a : Action) (st' : State) :
  step st a = Ok st' →
  (∀ sock now, a ≠ Client sock now connection) →
  (∀ sock now, a ≠ Client sock now disconnect) →
  connectedUsers st' = connectedUsers st ∧ userSockets st' = userSockets st.
Proof.
  intros H Hc Hd. destruct a as [sock now ev|i|db]; simpl in H.
  - destruct (is_relay ev) eqn:Hrel.
    { by destruct (relay_handle _ _ _ _ _ Hrel H) as [->|(room & event & payload & -> & _)]. }
    destruct ev as [|courseId|courseId| | | |status| |data|]; try discriminate Hrel;
      simpl in H; try (by injection H as <-).
    + by destruct (Hc sock now).
    + by apply announcement_created_frame in H as (_ & ? & ? & _).
    + by destruct (Hd sock now).
  - injection H as <-. unfold settle.
    destruct (pending st !! i) as [[sock|sock courseId|uid status lastSeen]|]; simpl; [..|done].
    + by destruct (joinCourseRooms_frame (with_pending st (delete i (pending st))) sock)
        as (? & ? & _).
    + by destruct (join_course_resumed_frame (with_pending st (delete i (pending st)))
                     sock courseId) as (_ & ? & ? & _).
    + by destruct (broadcastStatusUpdate_frame (with_pending st (delete i (pending st)))
                     uid status lastSeen) as (_ & ? & ? & _).
  - by injection H as <-.
Qed.

Lemma step_paired (st : State) (a : Action) (st' : State) :
  paired st → single_device_ok st a → step st a = Ok st' → paired st'.
Proof.
  intros Hp Hok H.
  assert ((∃ sock now, a = Client sock now connection)
          ∨ (∃ sock now, a = Client sock now disconnect)
          ∨ ((∀ sock now, a ≠ Client sock now connection)
             ∧ (∀ sock now, a ≠ Client sock now disconnect)))
    as [(sock & now & ->)|[(sock & now & ->)|[Hc Hd]]].
  { destruct a as [sock now []| |]; eauto 6; right; right; split; congruence. }
  - cbn [step handle] in H. injection H as <-. destruct Hok as [Hus Hcu].
    intros uid sid. destruct (on_connection_maps st sock now) as (-> & -> & _).
    rewrite !lookup_insert_Some.
    split.
    + intros [[<- <-]|[Hne Hl]]; [by left|]. right. apply Hp in Hl.
      split; [|done]. intros <-. congruence.
    + intros [[<- <-]|[Hne Hl]]; [by left|]. right. apply Hp in Hl.
      split; [|done]. intros <-. congruence.
  - simpl in H. injection H as <-. simpl in Hok.
    intros uid sid. simpl. rewrite !lookup_delete_Some.
    split.
    + intros [Hne Hl]. apply Hp in Hl. split; [|done]. intros <-. congruence.
    + intros [Hne Hl]. apply Hp in Hl. split; [|done]. intros <-.
      apply Hp in Hok. congruence.
  - destruct (step_maps _ _ _ H Hc Hd) as [Hcu Hus].
    unfold paired. by rewrite Hcu, Hus.
Qed.

(** X1. While every principal has at most one connection, [isUserOnline]
    is exactly "the live set is not empty"; a second connect of a principal
    that is already connected leaves this regime. *)
Lemma presence_exact_when_single_connection (acts : list Action) (st st' : State) :
  paired st → single_device_run st acts → run st acts = Ok st' →
  paired st'
  ∧ ∀ uid, isUserOnline st' uid = true ↔ liveConnections st' uid ≠ ∅.
Proof.
  intros Hp Hwf Hrun.
  assert (paired st') as Hp'.
  { revert st Hp Hwf Hrun. induction acts as [|a acts IH]; intros st Hp Hwf Hrun.
    - simpl in Hrun. by injection Hrun as <-.
    - simpl in Hwf, Hrun. destruct Hwf as [Hok Hrest].
      destruct (step st a) as [st1|err] eqn:Hstep; [|discriminate Hrun].
      cbn [mbind Result_bind] in Hrun.
      apply (IH st1); eauto using step_paired. }
  split; [exact Hp'|]. intros uid. unfold isUserOnline. rewrite bool_decide_eq_true.
  split.
  - intros [sid Hsid]. apply Hp' in Hsid.
    apply elem_of_liveConnections in Hsid. set_solver.
  - intros Hne. apply set_choose_L in Hne as [sid Hsid].
    apply elem_of_liveConnections, Hp' in Hsid. eauto.
Qed.

(** Closed facts about a concrete run: split the conjunctions, evaluate. *)
Ltac by_evaluation :=
  repeat match goal with |- _ ∧ _ => split end; vm_compute; reflexivity.

(** C1 (the code departs from it). A principal [u] connects on two sockets
    [c1] and [c2] and the first one disconnects: [c2] is still connected
    and still a live connection of [u], and [isUserOnline] answers [false].
    So [isUserOnline] is not "the live set is non-empty" once a principal
    holds two connections. *)
Theorem C1_isUserOnline_false_with_live_connection
    (st : State) (u : User) (c1 c2 : string) (n1 n2 n3 : Z) :
  c1 ≠ c2 →
  let s1 := {| sock_id := c1; sock_user := u |} in
  let s2 := {| sock_id := c2; sock_user := u |} in
  ∃ st', run st [Client s1 n1 connection; Client s2 n2 connection;
                 Client s1 n3 disconnect] = Ok st'
    ∧ c2 ∈ live st'
    ∧ c2 ∈ liveConnections st' (u_id u)
    ∧ liveConnections st' (u_id u) ≠ ∅
    ∧ isUserOnline st' (u_id u) = false.
Proof.
  intros Hne s1 s2.
  exists (on_disconnect (on_connection (on_connection st s1 n1) s2 n2) s1 n3).
  split; [reflexivity|].
  destruct (on_disconnect_maps (on_connection (on_connection st s1 n1) s2 n2) s1 n3)
    as (Hcu3 & Hus3 & Hl3 & _).
  destruct (on_connection_maps (on_connection st s1 n1) s2 n2) as (Hcu2 & Hus2 & Hl2 & _).
  assert (c2 ∈ liveConnections
            (on_disconnect (on_connection (on_connection st s1 n1) s2 n2) s1 n3) (u_id u))
    as Hlive.
  { apply elem_of_liveConnections. rewrite Hus3, Hus2.
    rewrite lookup_delete_ne by done. by rewrite lookup_insert_eq. }
  split.
  { rewrite Hl3, Hl2. apply elem_of_difference. split.
    - apply elem_of_union_l. by apply elem_of_singleton.
    - intros H%elem_of_singleton. by apply Hne. }
  split; [exact Hlive|].
  split; [intros Hempty; rewrite Hempty in Hlive; by apply not_elem_of_empty in Hlive|].
  unfold isUserOnline. rewrite Hcu3.
  rewrite lookup_delete_eq. apply bool_decide_eq_false. by intros [? ?].
Qed.

Lemma C1_isUserOnline_false_with_live_connection_witness :
  "s1" ≠ "s2" ∧
  ∃ st', run (initial Campus.db)
             [Client Campus.phone 1 connection; Client Campus.laptop 2 connection;
              Client Campus.phone 3 disconnect] = Ok st'
    ∧ "s2" ∈ live st'
    ∧ "s2" ∈ liveConnections st' "u1"
    ∧ liveConnections st' "u1" ≠ ∅
    ∧ isUserOnline st' "u1" = false.
Proof.
  split; [discriminate|].
  apply (C1_isUserOnline_false_with_live_connection
           (initial Campus.db) Campus.alice "s1" "s2" 1 2 3).
  discriminate.
Defined.

(** C2 (the code departs from it). Alice connects on [s1] and [s2], each
    connect followed by the settling of its room query. Disconnecting [s1]
    makes [isUserOnline] answer [false] at once and, when its user query
    settles, sends the offline status update (her two course rooms and her
    department room) although [s2] is still connected; disconnecting [s2]
    sends the offline update a second time. *)
Theorem C2_first_disconnect_already_offline :
  ∃ st3 st4,
    run (initial Campus.db)
        [Client Campus.phone 1 connection; Settle 0;
         Client Campus.laptop 2 connection; Settle 0;
         Client Campus.phone 3 disconnect; Settle 0] = Ok st3
    ∧ run st3 [Client Campus.laptop 4 disconnect; Settle 0] = Ok st4
    ∧ elements (live st3) = ["s2"]
    ∧ elements (liveConnections st3 "u1") = ["s2"]
    ∧ isUserOnline st3 "u1" = false
    ∧ em_scope <$> offline_updates st3 "u1"
      = [ToRoom "course_c1" None; ToRoom "course_c2" None; ToRoom "department_CS" None]
    ∧ em_scope <$> offline_updates st4 "u1"
      = [ToRoom "course_c1" None; ToRoom "course_c2" None; ToRoom "department_CS" None;
         ToRoom "course_c1" None; ToRoom "course_c2" None; ToRoom "department_CS" None].
Proof.
  do 2 eexists. split; [reflexivity|]. split; [reflexivity|].
  by_evaluation.
Qed.

(** C6 (the code departs from it). The disconnect handler cannot raise and
    its two deletions are idempotent, but it broadcasts on every call: with
    Alice on [s1] and [s2], unregistering [s1] leaves her live set non-empty
    and still emits the offline update, which reaches her own socket [s2];
    running the handler for [s1] a second time leaves both maps as they were
    and emits the offline update once more. *)
Theorem C6_offline_emitted_on_every_disconnect :
  ∃ st2 st3 st4,
    run (initial Campus.db)
        [Client Campus.phone 1 connection; Settle 0;
         Client Campus.laptop 2 connection; Settle 0] = Ok st2
    ∧ run st2 [Client Campus.phone 3 disconnect; Settle 0] = Ok st3
    ∧ run st3 [Client Campus.phone 4 disconnect; Settle 0] = Ok st4
    ∧ elements (liveConnections st3 "u1") = ["s2"]
    ∧ (λ e, (em_scope e, elements (em_to e))) <$> emitted st2 st3
      = [(ToRoom "course_c1" None, ["s2"]); (ToRoom "course_c2" None, ["s2"]);
         (ToRoom "department_CS" None, ["s2"])]
    ∧ length (offline_updates st3 "u1") = 3
    ∧ map_to_list (connectedUsers st4) = map_to_list (connectedUsers st3)
    ∧ map_to_list (userSockets st4) = map_to_list (userSockets st3)
    ∧ length (offline_updates st4 "u1") = 6.
Proof.
  do 3 eexists. do 3 (split; [reflexivity|]).
  by_evaluation.
Qed.

(** ** The relay *)

(** C3, counterexample. Bob is neither enrolled in nor teaching course [c1],
    is no admin, and his socket is not in its room; Alice's is. His
    [typing_start] for [c1] is relayed to Alice's socket and nothing is
    sent back to him: no membership check is made and no error is
    emitted. *)
Lemma C3_relay_does_not_check_membership :
  ∃ st',
    hasAccess Campus.algo Campus.bob_sock = false
    ∧ bool_decide ("course_c1" ∈ rooms_of Campus.lobby "s3") = false
    ∧ handle Campus.lobby Campus.bob_sock 3 (typing_start (Campus.typing_in "c1")) = Ok st'
    ∧ (λ e, (em_scope e, em_event e, elements (em_to e))) <$> emitted Campus.lobby st'
      = [(ToRoom "course_c1" (Some "s3"), "user_typing", ["s1"])].
Proof.
  eexists. split; [reflexivity|]. split; [vm_compute; reflexivity|].
  split; [reflexivity|]. vm_compute. reflexivity.
Qed.

(** C3, as the code has it. A typing, read-receipt or file signal is
    routed by its payload alone. Where the declared scope cannot be read
    (the payload is [undefined] or [null], the id has no string form) the
    handler throws and nothing is sent; where the payload declares no
    scope the handler does nothing; otherwise it makes exactly one
    emission, under the signal's event name, through [socket.to(room)] to
    the declared room: to every connected socket of that room but the
    source. This holds for every socket and every state, so whether or not
    the source's principal is a member of the scope; the handler changes
    nothing else, suspends on nothing, emits no [error], and does the same
    whatever the store holds. *)
Theorem C3_relay_routes_unchecked
    (st : State) (sock : Socket) (now : Z) (ev : ClientEvent) :
  is_relay ev = true →
  decoded (payload_of ev) = true →
  match declared_scope ev with
  | Threw err => handle st sock now ev = Threw err
  | Ok None => handle st sock now ev = Ok st
  | Ok (Some room) =>
      ∃ st' e,
        handle st sock now ev = Ok st'
        ∧ only_wire st st'
        ∧ emitted st st' = [e]
        ∧ em_event e = relay_event ev
        ∧ em_event e ≠ "error"
        ∧ em_scope e = ToRoom room (Some (sock_id sock))
        ∧ em_to e = (room_members st room ∖ {[sock_id sock]}) ∩ live st
  end
  ∧ (∀ db,
       match handle st sock now ev, handle (with_store st db) sock now ev with
       | Ok st1, Ok st2 => wire st2 = wire st1
       | Threw err1, Threw err2 => err1 = err2
       | _, _ => False
       end).
Proof.
  intros Hrel _.
  pose proof (relay_routed st sock now ev Hrel) as H.
  split.
  - destruct (declared_scope ev) as [[room|]|err]; try exact H.
    destruct H as (payload & -> & _). do 2 eexists. split; [reflexivity|].
    split; [by unfold only_wire|]. split; [apply emitted_emit|].
    repeat split. by apply relay_event_not_error.
  - intros db. by apply relay_ignores_store.
Qed.

Lemma C3_relay_routes_unchecked_witness :
  ∃ st' e,
    handle Campus.lobby Campus.bob_sock 3 (typing_start (Campus.typing_in "c1")) = Ok st'
    ∧ only_wire Campus.lobby st'
    ∧ emitted Campus.lobby st' = [e]
    ∧ em_event e = "user_typing"
    ∧ em_event e ≠ "error"
    ∧ em_scope e = ToRoom "course_c1" (Some "s3")
    ∧ em_to e = (room_members Campus.lobby "course_c1" ∖ {["s3"]}) ∩ live Campus.lobby.
Proof.
  destruct (C3_relay_routes_unchecked Campus.lobby Campus.bob_sock 3
              (typing_start (Campus.typing_in "c1")) eq_refl eq_refl) as [H _].
  exact H.
Defined.

(** ** Presence broadcasts *)

(** C4, counterexample. Tina teaches [c1] and [c3] and her socket is put in
    both course rooms when her room query settles. Her connect emits only
    the [connected] acknowledgement, no status update; her disconnect emits
    one status update, to her department room, and none to her course
    rooms. *)
Lemma C4_teacher_courses_get_no_status_update :
  ∃ st1 st2,
    run (initial Campus.db) [Client Campus.tina_sock 1 connection; Settle 0] = Ok st1
    ∧ run st1 [Client Campus.tina_sock 2 disconnect; Settle 0] = Ok st2
    ∧ pending st1 = []
    ∧ pending st2 = []
    ∧ course_rooms_of st1 "s4" = {["course_c1"; "course_c3"]}
    ∧ em_event <$> emitted (initial Campus.db) st1 = ["connected"]
    ∧ (λ e, (em_scope e, em_event e)) <$> emitted st1 st2
      = [(ToRoom "department_CS" None, "user_status_update")].
Proof.
  do 2 eexists. do 2 (split; [reflexivity|]). by_evaluation.
Qed.

(** C4, as the code has it. A connect emits the [connected]
    acknowledgement to the socket and suspends on the room query alone,
    which emits nothing when it settles: no status update. A disconnect
    emits nothing itself and suspends on one user query with status
    [offline]; when that settles and the store returns the user,
    [user_status_update] is emitted once per room of [status_targets]: the
    rooms of [enrolledCourses] when, and only when, the stored role is
    [student], then the department room when a department is set. *)
Theorem C4_status_update_targets
    (st : State) (sock : Socket) (now : Z) (status : jsval) (u : User) :
  User_findById (store st) (userId sock) = Resolved (Some u) →
  ((∃ e, emitted st (on_connection st sock now) = [e]
         ∧ em_scope e = ToSocket (sock_id sock) ∧ em_event e = "connected")
   ∧ pending (on_connection st sock now) = pending st ++ [AwaitCourses sock]
   ∧ emitted st (resume st (AwaitCourses sock)) = [])
  ∧ (emitted st (on_disconnect st sock now) = []
     ∧ pending (on_disconnect st sock now)
       = pending st ++ [AwaitUser (userId sock) (JStr "offline") now])
  ∧ (λ e, (em_scope e, em_event e, field (em_payload e) "status"))
      <$> emitted st (resume st (AwaitUser (userId sock) status now))
    = (λ room, (ToRoom room None, "user_status_update", Some status)) <$> status_targets u
  ∧ (role u ≠ student →
     status_targets u = match department_of u with
                        | Some d => [department_room d]
                        | None => []
                        end).
Proof.
  intros Hu. split; [|split; [|split]].
  - split; [|split].
    + eexists. split; [apply emitted_app; apply on_connection_wire | done].
    + apply on_connection_maps.
    + simpl. destruct (joinCourseRooms_frame st sock) as (_ & _ & _ & _ & _ & Hw).
      apply emitted_app. by rewrite Hw, app_nil_r.
  - split; [|done]. apply emitted_app. simpl. by rewrite app_nil_r.
  - simpl.
    rewrite (emitted_app st _ (status_emission st (userId sock) status now
                                 <$> status_targets u)).
    + rewrite <- list_fmap_compose. by apply list_fmap_ext.
    + by apply broadcastStatusUpdate_wire.
  - intros Hrole. unfold status_targets. by destruct (role u).
Qed.

Lemma C4_status_update_targets_witness :
  let st := settle (on_connection (initial Campus.db) Campus.tina_sock 1) 0 in
  User_findById (store st) "t1" = Resolved (Some Campus.tina)
  ∧ (λ e, (em_scope e, em_event e, field (em_payload e) "status"))
      <$> emitted st (resume st (AwaitUser "t1" (JStr "offline") 2))
    = (λ room, (ToRoom room None, "user_status_update", Some (JStr "offline")))
      <$> status_targets Campus.tina.
Proof.
  intros st.
  assert (User_findById (store st) (userId Campus.tina_sock) = Resolved (Some Campus.tina))
    as Hu by (vm_compute; reflexivity).
  split; [exact Hu|].
  destruct (C4_status_update_targets st Campus.tina_sock 2 (JStr "offline") Campus.tina Hu)
    as (_ & _ & H & _).
  exact H.
Defined.

(** ** Joining a course room *)

Lemma includes_true (ids : list string) (x : string) :
  includes ids x = true ↔ x ∈ ids.
Proof.
  unfold includes. rewrite existsb_exists. split.
  - intros (y & Hin & Heq). apply String.eqb_eq in Heq as ->. by apply list_elem_of_In.
  - intros Hin. exists x. split; [by apply list_elem_of_In | apply String.eqb_refl].
Qed.

Lemma recipients_join_self (st : State) (sid room : string) :
  recipients (join st sid room) (ToSocket sid) = {[sid]} ∩ live st
  ∧ recipients (join st sid room) (ToRoom room (Some sid))
    = (room_members st room ∖ {[sid]}) ∩ live st.
Proof.
  simpl. rewrite live_join. split; [done|]. f_equal. apply set_eq. intros T.
  rewrite !elem_of_difference, !elem_of_room_members, rooms_of_join.
  case_decide as H; [destruct H as [-> _]|]; set_solver.
Qed.

Lemma recipients_emit (st : State) (sc : Scope) (event : string) (payload : jsval)
    (sc' : Scope) :
  recipients (emit st sc event payload) sc' = recipients st sc'.
Proof. by destruct sc' as [?|? [?|]|]. Qed.

(** What a granted [join_course] emits. *)
Lemma join_course_resumed_emitted
    (st : State) (sock : Socket) (courseId : string) (course : Course) :
  Course_findById (store st) courseId = Resolved (Some course) →
  hasAccess course sock = true →
  emitted st (join_course_resumed st sock courseId)
  = [{| em_scope := ToSocket (sock_id sock); em_event := "course_joined";
        em_payload :=
          JObj [("courseId", JStr courseId); ("courseName", JStr (c_name course));
                ("message", JStr ("Joined " +:+ c_name course +:+ " chat room"))];
        em_to := {[sock_id sock]} ∩ live st |};
     {| em_scope := ToRoom (course_room courseId) (Some (sock_id sock));
        em_event := "user_joined_course";
        em_payload := JObj [("user", user_summary sock); ("courseId", JStr courseId)];
        em_to := (room_members st (course_room courseId) ∖ {[sock_id sock]}) ∩ live st |}].
Proof.
  intros Hfind Hacc. unfold join_course_resumed. rewrite Hfind, Hacc.
  destruct (recipients_join_self st (sock_id sock) (course_room courseId)) as [H1 H2].
  apply emitted_app. rewrite !wire_emit, wire_join, <- app_assoc.
  by rewrite recipients_emit, H1, H2.
Qed.

(** C5, counterexample. The store has course [c1] and Root is an admin,
    but the store answers no query. Root's [join_course] for [c1] is
    answered [Failed to join course] when its lookup settles, and the
    socket is not put in the room: neither the success the specification
    promises an admin nor one of its two errors. *)
Lemma C5_lookup_failure_is_a_third_outcome :
  let down := {| users := users Campus.db; courses := courses Campus.db;
                 rejects := λ _, true |} in
  let st0 := settle (on_connection (initial down) Campus.root_sock 1) 0 in
  ∃ st1 st2,
    handle st0 Campus.root_sock 2 (join_course "c1") = Ok st1
    ∧ st2 = settle st1 0
    ∧ courses (store st1) = [Campus.algo; Campus.logic; Campus.compilers]
    ∧ hasAccess Campus.algo Campus.root_sock = true
    ∧ (λ e, (em_scope e, em_event e, em_payload e, elements (em_to e))) <$> emitted st1 st2
      = [(ToSocket "s5", "error", JObj [("message", JStr "Failed to join course")], ["s5"])]
    ∧ bool_decide (course_room "c1" ∈ rooms_of st2 "s5") = false
    ∧ pending st2 = [].
Proof.
  intros down st0. do 2 eexists. split; [reflexivity|]. split; [reflexivity|].
  by_evaluation.
Qed.

(** C5, as the code has it. A [join_course] suspends on the lookup of the
    course and is answered when the lookup settles, once, with nothing
    left pending. A lookup that rejects (the store cannot be reached, the
    id does not cast) gives the socket the error [Failed to join course];
    no such course gives [Course not found]; a course of which the
    principal is neither an enrolled student nor the teacher, the
    principal being no admin, gives [Not authorized to join this course];
    in these three cases no room is joined. An enrolled student, the
    teacher or an admin is told [course_joined], the others in the room
    are told [user_joined_course], and the socket, if it is still
    connected, is put in the course room; no other socket's rooms
    change. *)
Theorem C5_join_course_outcomes
    (st : State) (i : nat) (sock : Socket) (courseId : string) :
  pending st !! i = Some (AwaitCourse sock courseId) →
  let st' := settle st i in
  let refusal message :=
    {| em_scope := ToSocket (sock_id sock); em_event := "error";
       em_payload := JObj [("message", JStr message)];
       em_to := {[sock_id sock]} ∩ live st |} in
  (∀ st0 now, handle st0 sock now (join_course courseId)
              = Ok (suspend st0 (AwaitCourse sock courseId)))
  ∧ pending st' = delete i (pending st)
  ∧ (Course_findById (store st) courseId = Rejected →
       emitted st st' = [refusal "Failed to join course"] ∧ sids st' = sids st)
  ∧ (Course_findById (store st) courseId = Resolved None →
       emitted st st' = [refusal "Course not found"] ∧ sids st' = sids st)
  ∧ (∀ course, Course_findById (store st) courseId = Resolved (Some course) →
       role (sock_user sock) ≠ admin →
       userId sock ∉ enrolledStudents course →
       c_teacher course ≠ userId sock →
       emitted st st' = [refusal "Not authorized to join this course"]
       ∧ sids st' = sids st)
  ∧ (∀ course, Course_findById (store st) courseId = Resolved (Some course) →
       userId sock ∈ enrolledStudents course
       ∨ c_teacher course = userId sock
       ∨ role (sock_user sock) = admin →
       (sock_id sock ∈ live st → course_room courseId ∈ rooms_of st' (sock_id sock))
       ∧ (sock_id sock ∉ live st → sids st' = sids st)
       ∧ (∀ other, other ≠ sock_id sock → rooms_of st' other = rooms_of st other)
       ∧ emitted st st'
         = [{| em_scope := ToSocket (sock_id sock); em_event := "course_joined";
               em_payload :=
                 JObj [("courseId", JStr courseId); ("courseName", JStr (c_name course));
                       ("message", JStr ("Joined " +:+ c_name course +:+ " chat room"))];
               em_to := {[sock_id sock]} ∩ live st |};
            {| em_scope := ToRoom (course_room courseId) (Some (sock_id sock));
               em_event := "user_joined_course";
               em_payload := JObj [("user", user_summary sock); ("courseId", JStr courseId)];
               em_to := (room_members st (course_room courseId) ∖ {[sock_id sock]})
                        ∩ live st |}]).
Proof.
  intros Hpend st' refusal. subst st'. unfold settle. rewrite Hpend. cbn [resume].
  set (stp := with_pending st (delete i (pending st))).
  split; [done|]. split.
  { by destruct (join_course_resumed_frame stp sock courseId) as (_ & _ & _ & _ & _ & ->). }
  change (emitted st) with (emitted stp).
  split; [|split; [|split]].
  - intros Hfind. unfold join_course_resumed. cbn [store stp with_pending]. rewrite Hfind.
    split; [|done]. apply emitted_emit.
  - intros Hfind. unfold join_course_resumed. cbn [store stp with_pending]. rewrite Hfind.
    split; [|done]. apply emitted_emit.
  - intros course Hfind Hrole Henr Hteach.
    unfold join_course_resumed. cbn [store stp with_pending]. rewrite Hfind.
    assert (hasAccess course sock = false) as ->.
    { unfold hasAccess. rewrite !orb_false_iff. repeat split.
      - apply not_true_is_false. by rewrite includes_true.
      - by apply String.eqb_neq.
      - by apply bool_decide_eq_false. }
    split; [|done]. apply emitted_emit.
  - intros course Hfind Hmember.
    assert (hasAccess course sock = true) as Hacc.
    { unfold hasAccess. rewrite !orb_true_iff.
      destruct Hmember as [H|[H|H]].
      - left. left. by apply includes_true.
      - left. right. by apply String.eqb_eq.
      - right. by apply bool_decide_eq_true. }
    assert (∀ sid, rooms_of (join_course_resumed stp sock courseId) sid
                   = if decide (sid = sock_id sock ∧ sock_id sock ∈ live st)
                     then {[course_room courseId]} ∪ rooms_of st (sock_id sock)
                     else rooms_of st sid) as Hrooms.
    { intros sid. rewrite rooms_of_join_course_resumed.
      change (store stp) with (store st). by rewrite Hfind, Hacc. }
    split; [|split; [|split]].
    + intros Hlive. rewrite Hrooms, decide_True by done. set_solver.
    + intros Hclosed. unfold join_course_resumed.
      cbn [store stp with_pending]. rewrite Hfind, Hacc.
      by rewrite join_closed.
    + intros other Hne. rewrite Hrooms, decide_False; [done|]. by intros [? _].
    + apply (join_course_resumed_emitted stp sock courseId course Hfind Hacc).
Qed.

Lemma C5_join_course_outcomes_witness :
  let st := suspend Campus.lobby (AwaitCourse Campus.bob_sock "c1") in
  handle Campus.lobby Campus.bob_sock 3 (join_course "c1") = Ok st
  ∧ pending st !! 0 = Some (AwaitCourse Campus.bob_sock "c1")
  ∧ Course_findById (store st) "c1" = Resolved (Some Campus.algo)
  ∧ emitted st (settle st 0)
    = [{| em_scope := ToSocket "s3"; em_event := "error";
          em_payload := JObj [("message", JStr "Not authorized to join this course")];
          em_to := {["s3"]} ∩ live st |}]
  ∧ sids (settle st 0) = sids st.
Proof.
  intros st.
  assert (pending st !! 0 = Some (AwaitCourse Campus.bob_sock "c1")) as Hpend
    by (vm_compute; reflexivity).
  assert (Course_findById (store st) "c1" = Resolved (Some Campus.algo)) as Hfind
    by (vm_compute; reflexivity).
  split; [reflexivity|]. split; [exact Hpend|]. split; [exact Hfind|].
  destruct (C5_join_course_outcomes st 0 Campus.bob_sock "c1" Hpend)
    as (_ & _ & _ & _ & Hdeny & _).
  apply (Hdeny Campus.algo Hfind).
  - discriminate.
  - vm_compute. intros H. by repeat (apply elem_of_cons in H as [H|H]; [discriminate H|]);
      apply elem_of_nil in H.
  - discriminate.
Defined.

(** ** Rooms resolved at connect *)

Lemma is_course_room_course (cid : string) : is_course_room (course_room cid) = true.
Proof. by destruct cid. Qed.

Lemma is_course_room_user (uid : string) : is_course_room (user_room uid) = false.
Proof. reflexivity. Qed.

Lemma is_course_room_department (d : string) : is_course_room (department_room d) = false.
Proof. reflexivity. Qed.

Global Instance course_room_inj : Inj (=) (=) course_room.
Proof. intros x y H. unfold course_room in H. simpl in H. by simplify_eq. Qed.

Lemma filter_AllCourses (cs : list Course) :
  filter (λ c, matches AllCourses c = true) cs = cs.
Proof.
  induction cs as [|c cs IH]; [done|].
  rewrite filter_cons_True; [by rewrite IH | reflexivity].
Qed.

(** The rooms of a socket once its connect and the room query of that
    connect have run. *)
Lemma rooms_after_connect (st : State) (sock : Socket) (now : Z) :
  let st1 := on_connection st sock now in
  let st2 := settle st1 (length (pending st)) in
  rooms_of st2 (sock_id sock)
    = {[user_room (userId sock)]} ∪ default_rooms (store st) sock
  ∧ pending st2 = pending st
  ∧ wire st2 = wire st1.
Proof.
  intros st1 st2.
  destruct (on_connection_maps st sock now) as (_ & _ & Hlive & Hdb & Hpend).
  fold st1 in Hlive, Hdb, Hpend.
  subst st2. unfold settle. rewrite Hpend, list_lookup_middle by done. cbn [resume].
  set (stp := with_pending st1 _).
  destruct (joinCourseRooms_frame stp sock) as (_ & _ & _ & _ & Hp & Hw).
  split; [|split].
  - rewrite rooms_of_joinCourseRooms.
    change (live stp) with (live st1). change (store stp) with (store st1).
    rewrite Hlive, Hdb, decide_True by set_solver.
    change (rooms_of stp (sock_id sock)) with (rooms_of st1 (sock_id sock)).
    subst st1. rewrite rooms_of_on_connection, decide_True by done. set_solver.
  - rewrite Hp. subst stp. cbn [pending with_pending].
    rewrite delete_middle. apply app_nil_r.
  - by rewrite Hw.
Qed.

(** C7. An admin connects; the connect suspends on the query for all
    courses. When that query settles and resolves, the course rooms of the
    socket are exactly the rooms of the courses in the store, and there are
    as many of them as the store has courses (course ids being unique in
    the store). *)
Theorem C7_admin_joins_every_course (st : State) (sock : Socket) (now : Z) :
  role (sock_user sock) = admin →
  rejects (store st) (QCourseFind AllCourses) = false →
  NoDup (c_id <$> courses (store st)) →
  let st1 := on_connection st sock now in
  let st2 := settle st1 (length (pending st)) in
  pending st1 = pending st ++ [AwaitCourses sock]
  ∧ course_rooms_of st2 (sock_id sock)
    = list_to_set ((λ c, course_room (c_id c)) <$> courses (store st))
  ∧ (∀ c, c ∈ courses (store st) → course_room (c_id c) ∈ rooms_of st2 (sock_id sock))
  ∧ size (course_rooms_of st2 (sock_id sock)) = length (courses (store st)).
Proof.
  intros Hrole Hup Hnodup st1 st2.
  assert (pending st1 = pending st ++ [AwaitCourses sock]) as Hpend
    by apply on_connection_maps.
  split; [exact Hpend|].
  assert (rooms_of st2 (sock_id sock)
          = {[user_room (userId sock)]}
            ∪ list_to_set ((λ c, course_room (c_id c)) <$> courses (store st))
            ∪ match department_of (sock_user sock) with
              | Some d => {[department_room d]}
              | None => ∅
              end) as Hrooms.
  { destruct (rooms_after_connect st sock now) as (Hr & _). fold st1 st2 in Hr.
    rewrite Hr. unfold default_rooms. rewrite Hrole. unfold Course_find.
    rewrite Hup, filter_AllCourses. set_solver. }
  assert (course_rooms_of st2 (sock_id sock)
          = list_to_set ((λ c, course_room (c_id c)) <$> courses (store st))) as Heq.
  { unfold course_rooms_of. rewrite Hrooms. apply set_eq. intros r.
    rewrite elem_of_filter, !elem_of_union, elem_of_singleton, elem_of_list_to_set.
    split.
    - intros (Hc & [[->|Hin]|Hd]).
      + by rewrite is_course_room_user in Hc.
      + done.
      + destruct (department_of _) as [d|].
        * apply elem_of_singleton in Hd as ->.
          by rewrite is_course_room_department in Hc.
        * by apply not_elem_of_empty in Hd.
    - intros Hin. split; [|by left; right].
      apply list_elem_of_fmap in Hin as (c & -> & _). apply is_course_room_course. }
  split; [exact Heq|]. split.
  - intros c Hc. rewrite Hrooms. apply elem_of_union_l, elem_of_union_r.
    apply elem_of_list_to_set, list_elem_of_fmap. eauto.
  - rewrite Heq, size_list_to_set.
    + by rewrite length_fmap.
    + rewrite (list_fmap_compose c_id course_room). by apply (NoDup_fmap_2 _).
Qed.

Lemma C7_admin_joins_every_course_witness :
  let st2 := settle (on_connection Campus.lobby Campus.root_sock 3) 0 in
  course_rooms_of st2 "s5" = list_to_set ["course_c1"; "course_c2"; "course_c3"]
  ∧ size (course_rooms_of st2 "s5") = 3.
Proof.
  intros st2.
  destruct (C7_admin_joins_every_course Campus.lobby Campus.root_sock 3)
    as (_ & Heq & _ & Hsize).
  - reflexivity.
  - reflexivity.
  - simpl. repeat constructor; set_solver.
  - split; [exact Heq | exact Hsize].
Defined.

(** ** Order of delivery *)

Lemma inbox_app (st st' : State) (new : list Emission) (T : string) :
  wire st' = wire st ++ new →
  inbox st' T = inbox st T ++ delivered st st' T.
Proof.
  intros H. unfold delivered. rewrite (emitted_app _ _ _ H).
  unfold inbox. by rewrite H, filter_app.
Qed.

(** A status broadcast when its user query settles. *)
Lemma settle_status
    (st : State) (i : nat) (uid : string) (status : jsval) (now : Z) (u : User) :
  pending st !! i = Some (AwaitUser uid status now) →
  User_findById (store st) uid = Resolved (Some u) →
  wire (settle st i) = wire st ++ (status_emission st uid status now <$> status_targets u)
  ∧ pending (settle st i) = delete i (pending st)
  ∧ store (settle st i) = store st
  ∧ (∀ sc, recipients (settle st i) sc = recipients st sc).
Proof.
  intros Hp Hu. unfold settle. rewrite Hp. cbn [resume].
  set (stp := with_pending st (delete i (pending st))).
  destruct (broadcastStatusUpdate_frame stp uid status now)
    as (_ & _ & _ & Hl & Hs & Hdb & Hpend).
  split; [|split; [|split]].
  - apply (broadcastStatusUpdate_wire stp uid status now u Hu).
  - by rewrite Hpend.
  - by rewrite Hdb.
  - intros sc. by apply recipients_frame.
Qed.

Lemma status_emission_ext (st st' : State) (uid : string) (status : jsval) (now : Z)
    (rooms : list string) :
  (∀ sc, recipients st' sc = recipients st sc) →
  status_emission st' uid status now <$> rooms = status_emission st uid status now <$> rooms.
Proof. intros H. apply list_fmap_ext. intros _ room _. unfold status_emission. by rewrite H. Qed.

(** C8, counterexample. Tina's socket [s4] is in Alice's course room [c1]
    and department room. Alice's socket [s1] submits the status [away] and
    then the status [online]; the user query of the second settles before
    that of the first. Both sockets stay connected, and [s4] is sent
    [online] before [away]. *)
Lemma C8_status_updates_overtake :
  let st0 := settle (on_connection Campus.lobby Campus.tina_sock 3) 0 in
  ∃ st2 st4,
    run st0 [Client Campus.phone 4 (status_update (JStr "away"));
             Client Campus.phone 5 (status_update (JStr "online"))] = Ok st2
    ∧ run st2 [Settle 1; Settle 0] = Ok st4
    ∧ live st4 = {["s1"; "s3"; "s4"]}
    ∧ (λ e, (em_scope e, field (em_payload e) "status")) <$> delivered st0 st4 "s4"
      = [(ToRoom "course_c1" None, Some (JStr "online"));
         (ToRoom "department_CS" None, Some (JStr "online"));
         (ToRoom "course_c1" None, Some (JStr "away"));
         (ToRoom "department_CS" None, Some (JStr "away"))].
Proof.
  intros st0. do 2 eexists. split; [reflexivity|]. split; [reflexivity|].
  by_evaluation.
Qed.

(** C8, as the code has it. The relay handlers emit before they return.
    So when [S] submits a relay signal [e1], as the transport decodes it,
    whose declared scope includes [T], the handler returns and [T] is sent
    the signal once; when then anything happens (client events of any
    socket, queries settling, store writes) and [S] submits a relay signal
    [e2] whose declared scope includes [T], that handler returns too, [T]
    is sent that signal once, and what [T] has been sent in the end is what
    it had been sent before, then the signal of [e1], then whatever came in
    between, then the signal of [e2]. A status update is emitted only when
    its user query settles: of two updates submitted in order by one
    socket, the one whose query settles first is emitted first, be it the
    second. ([k] is where the first of the two queries stands among the
    pending ones; once either has settled the other stands at [k].) *)
Theorem C8_order_of_delivery
    (st0 : State) (S : Socket) (T : string) (n1 n2 : Z) (e1 e2 : ClientEvent)
    (r1 r2 : string) :
  (is_relay e1 = true → is_relay e2 = true →
   decoded (payload_of e1) = true → decoded (payload_of e2) = true →
   declared_scope e1 = Ok (Some r1) → declared_scope e2 = Ok (Some r2) →
   T ∈ recipients st0 (ToRoom r1 (Some (sock_id S))) →
   ∃ st1 x,
     handle st0 S n1 e1 = Ok st1
     ∧ delivered st0 st1 T = [x]
     ∧ em_event x = relay_event e1 ∧ em_scope x = ToRoom r1 (Some (sock_id S))
     ∧ ∀ between st2,
         run st1 between = Ok st2 →
         T ∈ recipients st2 (ToRoom r2 (Some (sock_id S))) →
         ∃ st3 y,
           handle st2 S n2 e2 = Ok st3
           ∧ delivered st2 st3 T = [y]
           ∧ em_event y = relay_event e2 ∧ em_scope y = ToRoom r2 (Some (sock_id S))
           ∧ inbox st3 T = inbox st0 T ++ [x] ++ delivered st1 st2 T ++ [y])
  ∧ (∀ (s1 s2 : jsval) (u : User),
       User_findById (store st0) (userId S) = Resolved (Some u) →
       let k := length (pending st0) in
       let submitted := on_status_update (on_status_update st0 S n1 s1) S n2 s2 in
       let first := status_emission st0 (userId S) s1 n1 <$> status_targets u in
       let second := status_emission st0 (userId S) s2 n2 <$> status_targets u in
       run st0 [Client S n1 (status_update s1); Client S n2 (status_update s2)]
       = Ok submitted
       ∧ emitted st0 submitted = []
       ∧ emitted submitted (settle (settle submitted k) k) = first ++ second
       ∧ emitted submitted (settle (settle submitted (Datatypes.S k)) k) = second ++ first).
Proof.
  split.
  - intros Hr1 Hr2 _ _ Hs1 Hs2 HT1.
    pose proof (relay_routed st0 S n1 e1 Hr1) as Hx. rewrite Hs1 in Hx.
    destruct Hx as (p1 & Hx & _).
    do 2 eexists. split; [exact Hx|].
    split; [unfold delivered; rewrite emitted_emit; by rewrite filter_cons_True|].
    do 2 (split; [reflexivity|]).
    intros between st2 Hmid HT2.
    pose proof (relay_routed st2 S n2 e2 Hr2) as Hy. rewrite Hs2 in Hy.
    destruct Hy as (p2 & Hy & _).
    destruct (run_wire _ _ _ Hmid) as [newm Hwm].
    do 2 eexists. split; [exact Hy|].
    split; [unfold delivered; rewrite emitted_emit; by rewrite filter_cons_True|].
    do 2 (split; [reflexivity|]).
    rewrite (inbox_app st2 _ _ T (wire_emit _ _ _ _)), (inbox_app _ _ _ T Hwm),
      (inbox_app st0 _ _ T (wire_emit _ _ _ _)).
    unfold delivered at 1 3. rewrite !emitted_emit, !filter_cons_True by done.
    by rewrite <- !app_assoc.
  - intros s1 s2 u Hu k submitted first second. subst k first second.
    set (A1 := AwaitUser (userId S) s1 n1). set (A2 := AwaitUser (userId S) s2 n2).
    assert (pending submitted = pending st0 ++ [A1; A2]) as Hp.
    { subst submitted. simpl. by rewrite <- app_assoc. }
    split; [done|]. split; [apply emitted_app; simpl; by rewrite app_nil_r|].
    assert (∀ sc, recipients submitted sc = recipients st0 sc) as Hrec
      by (intros sc; by apply recipients_frame).
    split.
    + assert (pending submitted !! length (pending st0) = Some A1) as Hk
        by (rewrite Hp; by apply list_lookup_middle).
      destruct (settle_status submitted _ _ _ _ u Hk Hu) as (Hw1 & Hp1 & Hdb1 & Hrec1).
      assert (pending (settle submitted (length (pending st0))) !! length (pending st0)
              = Some A2) as Hk2.
      { rewrite Hp1, Hp. rewrite (delete_middle (pending st0) [A2] A1).
        by apply list_lookup_middle. }
      destruct (settle_status _ _ _ _ _ u Hk2) as (Hw2 & _).
      { by rewrite Hdb1. }
      apply emitted_app. rewrite Hw2, Hw1, <- app_assoc.
      rewrite (status_emission_ext st0 (settle submitted _))
        by (intros sc; by rewrite Hrec1).
      by rewrite (status_emission_ext st0 submitted).
    + assert (pending submitted = (pending st0 ++ [A1]) ++ [A2]) as Hp'
        by (by rewrite Hp, <- app_assoc).
      assert (Datatypes.S (length (pending st0)) = length (pending st0 ++ [A1])) as Hlen
        by (rewrite length_app; simpl; lia).
      assert (pending submitted !! Datatypes.S (length (pending st0)) = Some A2) as Hk
        by (rewrite Hp', Hlen; by apply list_lookup_middle).
      destruct (settle_status submitted _ _ _ _ u Hk Hu) as (Hw1 & Hp1 & Hdb1 & Hrec1).
      assert (pending (settle submitted (Datatypes.S (length (pending st0))))
                !! length (pending st0) = Some A1) as Hk2.
      { rewrite Hp1, Hp', Hlen, (delete_middle (pending st0 ++ [A1]) [] A2), app_nil_r.
        by apply list_lookup_middle. }
      destruct (settle_status _ _ _ _ _ u Hk2) as (Hw2 & _).
      { by rewrite Hdb1. }
      apply emitted_app. rewrite Hw2, Hw1, <- app_assoc.
      rewrite (status_emission_ext st0 (settle submitted _))
        by (intros sc; by rewrite Hrec1).
      by rewrite (status_emission_ext st0 submitted).
Qed.

Lemma C8_order_of_delivery_witness :
  let st0 := settle (on_connection Campus.lobby Campus.tina_sock 3) 0 in
  let between := [Client Campus.bob_sock 5 (typing_start (Campus.typing_in "c1"));
                  Client Campus.bob_sock 6 (status_update (JStr "away")); Settle 0] in
  ∃ st1 st2 st3 x y,
    handle st0 Campus.tina_sock 4 (typing_start (Campus.typing_in "c1")) = Ok st1
    ∧ run st1 between = Ok st2
    ∧ handle st2 Campus.tina_sock 7 (typing_stop (Campus.typing_in "c1")) = Ok st3
    ∧ delivered st0 st1 "s1" = [x] ∧ em_event x = "user_typing"
    ∧ delivered st2 st3 "s1" = [y] ∧ em_event y = "user_stopped_typing"
    ∧ inbox st3 "s1" = inbox st0 "s1" ++ [x] ++ delivered st1 st2 "s1" ++ [y].
Proof.
  intros st0 between.
  destruct (C8_order_of_delivery st0 Campus.tina_sock "s1" 4 7
              (typing_start (Campus.typing_in "c1")) (typing_stop (Campus.typing_in "c1"))
              "course_c1" "course_c1") as [Hfifo _].
  destruct Hfifo as (st1 & x & H1 & Hx & Hex & _ & Hnext);
    [reflexivity | reflexivity | reflexivity | reflexivity | reflexivity | reflexivity
    | apply (bool_decide_unpack _); vm_compute; exact I |].
  assert (∃ st2, run st1 between = Ok st2) as [st2 Hmid].
  { injection H1 as <-. eexists. reflexivity. }
  destruct (Hnext between st2 Hmid) as (st3 & y & H2 & Hy & Hey & _ & Hin).
  { injection H1 as <-. injection Hmid as <-.
    apply (bool_decide_unpack _). vm_compute. exact I. }
  exists st1, st2, st3, x, y. repeat split; assumption.
Defined.

(** ** Who a relayed signal says acted *)

(** C9. In every signal the relay emits for a socket, the field naming the
    actor ([userId], [readBy], [sharedBy.id]) is the socket's authenticated
    user id; so two submissions from one socket, whatever their payloads
    and whatever the state, carry the same actor. *)
Theorem C9_actor_is_authenticated_principal
    (sock : Socket) (st1 st2 st1' st2' : State) (n1 n2 : Z) (ev1 ev2 : ClientEvent) :
  is_relay ev1 = true →
  is_relay ev2 = true →
  handle st1 sock n1 ev1 = Ok st1' →
  handle st2 sock n2 ev2 = Ok st2' →
  (∀ e, e ∈ emitted st1 st1' → actor_of e = Some (JStr (userId sock)))
  ∧ (∀ e e', e ∈ emitted st1 st1' → e' ∈ emitted st2 st2' → actor_of e = actor_of e').
Proof.
  assert (∀ st st' now ev,
            is_relay ev = true → handle st sock now ev = Ok st' →
            ∀ e, e ∈ emitted st st' → actor_of e = Some (JStr (userId sock))) as Hone.
  { intros st st' now ev Hrel H e He.
    destruct (relay_handle _ _ _ _ _ Hrel H) as [->|(room & event & payload & -> & _ & Hact)].
    - rewrite emitted_refl in He. by apply elem_of_nil in He.
    - rewrite emitted_emit in He. by apply list_elem_of_singleton in He as ->. }
  intros Hr1 Hr2 H1 H2. split.
  - by apply (Hone st1 st1' n1 ev1).
  - intros e e' He He'.
    rewrite (Hone st1 st1' n1 ev1 Hr1 H1 e He).
    by rewrite (Hone st2 st2' n2 ev2 Hr2 H2 e' He').
Qed.

Lemma C9_actor_is_authenticated_principal_witness :
  let forged1 := JObj [("courseId", JStr "c1"); ("conversationType", JStr "course");
                       ("userId", JStr "t1")] in
  let forged2 := JObj [("messageId", JStr "m1"); ("senderId", JStr "u1");
                       ("conversationType", JStr "private"); ("readBy", JStr "a1")] in
  ∃ st1' st2',
    handle Campus.lobby Campus.bob_sock 3 (typing_start forged1) = Ok st1'
    ∧ handle Campus.lobby Campus.bob_sock 4 (message_read forged2) = Ok st2'
    ∧ em_event <$> emitted Campus.lobby st1' = ["user_typing"]
    ∧ em_event <$> emitted Campus.lobby st2' = ["message_read_receipt"]
    ∧ (∀ e, e ∈ emitted Campus.lobby st1' → actor_of e = Some (JStr "u2"))
    ∧ (∀ e e', e ∈ emitted Campus.lobby st1' → e' ∈ emitted Campus.lobby st2' →
         actor_of e = actor_of e').
Proof.
  intros forged1 forged2. do 2 eexists. do 2 (split; [reflexivity|]).
  split; [vm_compute; reflexivity|]. split; [vm_compute; reflexivity|].
  apply (C9_actor_is_authenticated_principal Campus.bob_sock Campus.lobby Campus.lobby
           _ _ 3 4 (typing_start forged1) (message_read forged2)
           eq_refl eq_refl eq_refl eq_refl).
Defined.

(** ** Announcements *)

(** C10. For an [announcement_created] payload, as the transport decodes
    it, whose [announcement] can be read: type ['general'] goes to every
    connected socket; any other type with a department set is for that
    department's room only, whatever [course] holds: one emission to the
    room the department names, or, when the department has no string form,
    a throw with nothing sent; the course room is used only when the type
    is not ['general'] and no department is set; with neither, nothing is
    sent. *)
Theorem C10_announcement_precedence
    (st : State) (data a ty dept course : jsval) :
  decoded data = true →
  get_prop data "announcement" = Ok a →
  get_prop a "type" = Ok ty →
  get_prop a "department" = Ok dept →
  get_prop a "course" = Ok course →
  (strict_eq_str ty "general" = true →
     ∃ st', on_announcement_created st data = Ok st'
            ∧ emitted st st' = [{| em_scope := ToAll; em_event := "new_announcement";
                                   em_payload := a; em_to := live st |}])
  ∧ (strict_eq_str ty "general" = false → truthy dept = true →
       match to_string dept with
       | Ok d =>
           ∃ st', on_announcement_created st data = Ok st'
                  ∧ emitted st st'
                    = [{| em_scope := ToRoom (department_room d) None;
                          em_event := "new_announcement"; em_payload := a;
                          em_to := room_members st (department_room d) ∩ live st |}]
       | Threw err => on_announcement_created st data = Threw err
       end)
  ∧ (strict_eq_str ty "general" = false → truthy dept = false → truthy course = true →
       match to_string course with
       | Ok c =>
           ∃ st', on_announcement_created st data = Ok st'
                  ∧ emitted st st'
                    = [{| em_scope := ToRoom (course_room c) None;
                          em_event := "new_announcement"; em_payload := a;
                          em_to := room_members st (course_room c) ∩ live st |}]
       | Threw err => on_announcement_created st data = Threw err
       end)
  ∧ (strict_eq_str ty "general" = false → truthy dept = false → truthy course = false →
       on_announcement_created st data = Ok st).
Proof.
  intros _ Ha Hty Hdept Hcourse. unfold on_announcement_created.
  rewrite Ha. cbn [mbind Result_bind]. rewrite Hty, Hdept, Hcourse. cbn [mbind Result_bind].
  split; [|split; [|split]].
  - intros ->. eexists. split; [reflexivity | apply emitted_emit].
  - intros -> ->. destruct (to_string dept) as [d|err]; cbn [mbind Result_bind]; [|done].
    eexists. split; [reflexivity | apply emitted_emit].
  - intros -> -> ->. destruct (to_string course) as [c|err]; cbn [mbind Result_bind]; [|done].
    eexists. split; [reflexivity | apply emitted_emit].
  - by intros -> -> ->.
Qed.

Lemma C10_announcement_precedence_witness :
  let a := JObj [("type", JStr "exam"); ("department", JStr "CS"); ("course", JStr "c1")] in
  ∃ st',
    on_announcement_created Campus.lobby (JObj [("announcement", a)]) = Ok st'
    ∧ emitted Campus.lobby st'
      = [{| em_scope := ToRoom "department_CS" None;
            em_event := "new_announcement"; em_payload := a;
            em_to := room_members Campus.lobby "department_CS" ∩ live Campus.lobby |}].
Proof.
  intros a.
  destruct (C10_announcement_precedence Campus.lobby (JObj [("announcement", a)]) a
              (JStr "exam") (JStr "CS") (JStr "c1") eq_refl eq_refl eq_refl eq_refl eq_refl)
    as (_ & Hdept & _).
  exact (Hdept eq_refl eq_refl).
Defined.

(** ** How rooms are granted *)

Lemma find_eqb_Some {A : Type} (key : A → string) (k : string) (l : list A) (x : A) :
  find (λ y, String.eqb (key y) k) l = Some x → x ∈ l ∧ key x = k.
Proof.
  intros H. apply find_some in H as [Hin Heq].
  split; [by apply list_elem_of_In | by apply String.eqb_eq].
Qed.

Lemma matches_hasAccess (sock : Socket) (course : Course) :
  matches match role (sock_user sock) with
          | student => Enrolled (userId sock)
          | teacher => TeacherOrEnrolled (userId sock)
          | admin => AllCourses
          end course = true →
  hasAccess course sock = true.
Proof.
  unfold hasAccess. destruct (role (sock_user sock)); simpl; intros H.
  - by rewrite H.
  - apply orb_true_iff in H as [H|H]; rewrite H; by rewrite ?orb_true_r.
  - by rewrite orb_true_r.
Qed.

Lemma elem_of_default_rooms (db : Store) (sock : Socket) (room : string) :
  room ∈ default_rooms db sock ↔
  ∃ found,
    Course_find db match role (sock_user sock) with
                   | student => Enrolled (userId sock)
                   | teacher => TeacherOrEnrolled (userId sock)
                   | admin => AllCourses
                   end = Resolved found
    ∧ ((∃ course, course ∈ found ∧ room = course_room (c_id course))
       ∨ (∃ d, department_of (sock_user sock) = Some d ∧ room = department_room d)).
Proof.
  unfold default_rooms. destruct (Course_find _ _) as [found|].
  - rewrite elem_of_union, elem_of_list_to_set, list_elem_of_fmap. split.
    + intros [(c & -> & Hc)|Hd]; exists found; (split; [done|]); [left; eauto|].
      right. destruct (department_of _) as [d|]; [|set_solver].
      exists d. split; [done|set_solver].
    + intros (found' & [= <-] & [(c & Hc & ->)|(d & Hd & ->)]); [left; eauto|].
      right. rewrite Hd. set_solver.
  - split; [set_solver|]. by intros (found & ? & _).
Qed.

Lemma default_rooms_granted (db : Store) (sock : Socket) (room : string) :
  room ∈ default_rooms db sock → granted db sock room.
Proof.
  intros (found & Hfind & H)%elem_of_default_rooms.
  destruct H as [(course & Hc & ->)|(d & Hd & ->)].
  - left. exists course. unfold Course_find in Hfind.
    destruct (rejects db _); [done|]. injection Hfind as <-.
    apply list_elem_of_filter in Hc as [Hm Hin].
    repeat split; [done|]. by apply matches_hasAccess.
  - right. by exists d.
Qed.

Lemma action_cases (a : Action) :
  (∃ sock now, a = Client sock now connection)
  ∨ (∃ sock now, a = Client sock now disconnect)
  ∨ ((∀ sock now, a ≠ Client sock now connection)
     ∧ (∀ sock now, a ≠ Client sock now disconnect)).
Proof. destruct a as [sock now []| |]; eauto 6; right; right; split; congruence. Qed.

(** A step that is neither a connect nor a disconnect: what it leaves alone
    and how rooms can change. A room is added only for the socket the step
    works for, and only one that socket is granted. *)
Lemma step_quiet (st : State) (a : Action) (st' : State) :
  step st a = Ok st' →
  (∀ sock now, a ≠ Client sock now connection) →
  (∀ sock now, a ≠ Client sock now disconnect) →
  connectedUsers st' = connectedUsers st ∧ userSockets st' = userSockets st
  ∧ live st' = live st
  ∧ (∀ sid r, r ∈ rooms_of st' sid →
       r ∈ rooms_of st sid
       ∨ ∃ sock, actor st a = Some sock ∧ sock_id sock = sid ∧ granted (store st) sock r)
  ∧ (∀ sid r, r ∈ rooms_of st sid → r ∈ rooms_of st' sid ∨ ∃ c, r = course_room c)
  ∧ (is_store_write a = false → store st' = store st).
Proof.
  intros H Hc Hd. destruct a as [sock now ev|i|db]; simpl in H.
  - destruct (is_relay ev) eqn:Hrel.
    { destruct (relay_handle _ _ _ _ _ Hrel H) as [->|(room & event & payload & -> & _)];
        repeat split; eauto. }
    destruct ev as [|courseId|courseId| | | |status| |data|]; try discriminate Hrel;
      simpl in H; try (injection H as <-).
    + by destruct (Hc sock now).
    + repeat split; eauto.
    + repeat split; try done.
      * intros sid r. change (rooms_of (on_leave_course st sock courseId) sid)
          with (rooms_of (leave st (sock_id sock) (course_room courseId)) sid).
        rewrite rooms_of_leave. case_decide; subst; set_solver.
      * intros sid r Hr. change (rooms_of (on_leave_course st sock courseId) sid)
          with (rooms_of (leave st (sock_id sock) (course_room courseId)) sid).
        rewrite rooms_of_leave. case_decide; subst; [|by left].
        destruct (decide (r = course_room courseId)) as [->|]; [eauto|left; set_solver].
    + repeat split; eauto.
    + apply announcement_created_frame in H as (_ & Hcu & Hus & Hl & Hs & Hdb & _).
      unfold rooms_of. rewrite Hs. repeat split; eauto.
    + by destruct (Hd sock now).
  - injection H as <-. unfold settle. cbn [actor].
    destruct (pending st !! i) as [[sock|sock courseId|uid status lastSeen]|] eqn:Hp;
      cbn [resume]; [..|repeat split; eauto].
    + set (stp := with_pending st (delete i (pending st))).
      destruct (joinCourseRooms_frame stp sock) as (Hcu & Hus & Hl & Hdb & _).
      repeat split; try done.
      * intros sid r. rewrite rooms_of_joinCourseRooms.
        case_decide as Hsid; [destruct Hsid as [-> _]|by left].
        intros [Hr|Hr]%elem_of_union; [right|by left].
        exists sock. repeat split. by apply default_rooms_granted.
      * intros sid r Hr. left. rewrite rooms_of_joinCourseRooms.
        case_decide as Hsid; [destruct Hsid as [-> _]|done].
        apply elem_of_union_r. exact Hr.
    + set (stp := with_pending st (delete i (pending st))).
      destruct (join_course_resumed_frame stp sock courseId)
        as (_ & Hcu & Hus & Hl & Hdb & _).
      repeat split; try done.
      * intros sid r. rewrite rooms_of_join_course_resumed.
        change (store stp) with (store st). change (rooms_of stp) with (rooms_of st).
        destruct (Course_findById (store st) courseId) as [[course|]|] eqn:Hfind; eauto.
        destruct (hasAccess course sock) eqn:Hacc; eauto.
        case_decide as Hsid; [destruct Hsid as [-> _]|by left].
        intros [Hr|Hr]%elem_of_union; [|by left].
        apply elem_of_singleton in Hr as ->. right.
        exists sock. repeat split. left.
        unfold Course_findById in Hfind. destruct (rejects _ _); [done|].
        injection Hfind as Hfind. apply find_eqb_Some in Hfind as [Hin <-].
        by exists course.
      * intros sid r Hr. left. rewrite rooms_of_join_course_resumed.
        change (rooms_of stp) with (rooms_of st).
        destruct (Course_findById (store stp) courseId) as [[course|]|]; try done.
        destruct (hasAccess course sock); [|done].
        case_decide as Hsid; [destruct Hsid as [-> _]|done].
        apply elem_of_union_r. exact Hr.
    + set (stp := with_pending st (delete i (pending st))).
      destruct (broadcastStatusUpdate_frame stp uid status lastSeen)
        as (_ & Hcu & Hus & Hl & Hs & Hdb & _).
      unfold rooms_of. rewrite Hs. repeat split; eauto.
  - injection H as <-. repeat split; eauto. discriminate.
Qed.

(** A suspended function is there because a client event of its socket
    put it there. *)
Lemma step_pending (st : State) (a : Action) (st' : State) (p : Pending) (sock : Socket) :
  step st a = Ok st' → p ∈ pending st' → pending_socket p = Some sock →
  p ∈ pending st ∨ ∃ now ev, a = Client sock now ev.
Proof.
  intros H Hin Hsock. destruct a as [sock' now ev|i|db]; simpl in H.
  - destruct (is_relay ev) eqn:Hrel.
    { destruct (relay_handle _ _ _ _ _ Hrel H) as [->|(room & event & payload & -> & _)];
        by left. }
    destruct ev as [|courseId|courseId| | | |status| |data|]; try discriminate Hrel;
      simpl in H; try (injection H as <-).
    + destruct (on_connection_maps st sock' now) as (_ & _ & _ & _ & Hp).
      rewrite Hp in Hin. apply elem_of_app in Hin as [?|Hin]; [by left|].
      apply list_elem_of_singleton in Hin as ->. injection Hsock as <-. eauto.
    + apply elem_of_app in Hin as [?|Hin]; [by left|].
      apply list_elem_of_singleton in Hin as ->. injection Hsock as <-. eauto.
    + by left.
    + apply elem_of_app in Hin as [?|Hin]; [by left|].
      apply list_elem_of_singleton in Hin as ->. discriminate Hsock.
    + apply announcement_created_frame in H as (_ & _ & _ & _ & _ & _ & Hp).
      left. by rewrite <- Hp.
    + apply elem_of_app in Hin as [?|Hin]; [by left|].
      apply list_elem_of_singleton in Hin as ->. discriminate Hsock.
  - injection H as <-. left. unfold settle in Hin.
    destruct (pending st !! i) as [q|]; [|done].
    assert (pending (resume (with_pending st (delete i (pending st))) q)
            = delete i (pending st)) as Hp.
    { destruct q as [s|s courseId|uid status lastSeen]; cbn [resume].
      - by destruct (joinCourseRooms_frame (with_pending st (delete i (pending st))) s)
          as (_ & _ & _ & _ & -> & _).
      - by destruct (join_course_resumed_frame (with_pending st (delete i (pending st)))
                       s courseId) as (_ & _ & _ & _ & _ & ->).
      - by destruct (broadcastStatusUpdate_frame (with_pending st (delete i (pending st)))
                       uid status lastSeen) as (_ & _ & _ & _ & _ & _ & ->). }
    rewrite Hp in Hin. eapply elem_of_sublist; [exact Hin | apply sublist_delete].
  - injection H as <-. by left.
Qed.

Lemma run_invariant (P : State → Prop) :
  (∀ st a st', P st → step st a = Ok st' → P st') →
  ∀ acts st st', P st → run st acts = Ok st' → P st'.
Proof.
  intros Hstep acts. induction acts as [|a acts IH]; intros st st' HP Hrun; simpl in Hrun.
  - by injection Hrun as <-.
  - destruct (step st a) as [st1|err] eqn:Hs; [|discriminate Hrun].
    cbn [mbind Result_bind] in Hrun. eauto.
Qed.

(** ** Invariants of the reachable states *)

Lemma room_prefixes (uid x : string) :
  user_room uid ≠ course_room x ∧ user_room uid ≠ department_room x.
Proof. split; discriminate. Qed.

Global Instance user_room_inj : Inj (=) (=) user_room.
Proof. intros x y H. unfold user_room in H. simpl in H. by simplify_eq. Qed.

Lemma granted_not_user_room (db : Store) (sock : Socket) (uid : string) :
  ¬ granted db sock (user_room uid).
Proof.
  intros [(course & _ & H & _)|(d & _ & H)]; by apply (room_prefixes uid) in H.
Qed.

Lemma dom_userSockets_live (db : Store) (acts : list Action) (st : State) :
  run (initial db) acts = Ok st → dom (userSockets st) = live st.
Proof.
  apply (run_invariant (λ s, dom (userSockets s) = live s)); [|set_solver].
  intros s a s' HP Hstep.
  destruct (action_cases a) as [(sock & now & ->)|[(sock & now & ->)|[Hc Hd]]].
  - cbn [step handle] in Hstep. injection Hstep as <-.
    destruct (on_connection_maps s sock now) as (_ & -> & -> & _).
    rewrite dom_insert_L. set_solver.
  - cbn [step handle] in Hstep. injection Hstep as <-.
    destruct (on_disconnect_maps s sock now) as (_ & -> & -> & _).
    rewrite dom_delete_L. set_solver.
  - destruct (step_quiet _ _ _ Hstep Hc Hd) as (_ & -> & -> & _). exact HP.
Qed.

(** X3. In every state reached from the start, [userSockets] has an entry
    for exactly the connected sockets: one is added by the connection
    handler, removed by the disconnect handler, and nothing else touches
    the map. *)
Theorem userSockets_are_the_connected_sockets
    (db : Store) (acts : list Action) (st : State) :
  run (initial db) acts = Ok st →
  dom (userSockets st) = live st
  ∧ recipients st ToAll = dom (userSockets st).
Proof.
  intros Hrun. pose proof (dom_userSockets_live _ _ _ Hrun) as Hdom.
  split; [exact Hdom|]. simpl. by rewrite Hdom.
Qed.

Lemma userSockets_are_the_connected_sockets_witness :
  ∃ st,
    run (initial Campus.db)
        [Client Campus.phone 1 connection; Settle 0; Client Campus.bob_sock 2 connection;
         Client Campus.phone 3 disconnect] = Ok st
    ∧ dom (userSockets st) = live st
    ∧ recipients st ToAll = dom (userSockets st).
Proof.
  eexists. split; [reflexivity|].
  exact (userSockets_are_the_connected_sockets Campus.db
           [Client Campus.phone 1 connection; Settle 0; Client Campus.bob_sock 2 connection;
            Client Campus.phone 3 disconnect] _ eq_refl).
Defined.

(** The socket ids in a personal room are those registered for its user. *)
Lemma personal_rooms_invariant (db : Store) (acts : list Action) (st : State) :
  run (initial db) acts = Ok st →
  ∀ sid uid, user_room uid ∈ rooms_of st sid ↔ userSockets st !! sid = Some uid.
Proof.
  apply (run_invariant
           (λ s, ∀ sid uid, user_room uid ∈ rooms_of s sid ↔ userSockets s !! sid = Some uid)).
  - intros s a s' HP Hstep sid uid.
    destruct (action_cases a) as [(sock & now & ->)|[(sock & now & ->)|[Hc Hd]]].
    + cbn [step handle] in Hstep. injection Hstep as <-. rewrite rooms_of_on_connection.
      destruct (on_connection_maps s sock now) as (_ & -> & _).
      case_decide; subst.
      * rewrite lookup_insert_eq, elem_of_singleton. split; [by intros ->%(inj _)|].
        by intros [= ->].
      * rewrite lookup_insert_ne by done. apply HP.
    + cbn [step handle] in Hstep. injection Hstep as <-. rewrite rooms_of_on_disconnect.
      destruct (on_disconnect_maps s sock now) as (_ & -> & _).
      case_decide; subst.
      * rewrite lookup_delete_eq. set_solver.
      * rewrite lookup_delete_ne by done. apply HP.
    + destruct (step_quiet _ _ _ Hstep Hc Hd) as (_ & Hus & _ & Hin & Hout & _).
      rewrite Hus, <- HP. split.
      * intros [H|(sock & _ & _ & H)]%Hin; [done|]. by apply granted_not_user_room in H.
      * intros [H|(c & H)]%Hout; [done|]. by apply (room_prefixes uid) in H.
  - intros sid uid. unfold rooms_of. simpl. rewrite !lookup_empty. simpl. set_solver.
Qed.

Lemma personal_room_members (db : Store) (acts : list Action) (st : State) (uid : string) :
  run (initial db) acts = Ok st →
  room_members st (user_room uid) = liveConnections st uid
  ∧ liveConnections st uid ⊆ live st.
Proof.
  intros Hrun.
  pose proof (personal_rooms_invariant _ _ _ Hrun) as Hroom.
  pose proof (dom_userSockets_live _ _ _ Hrun) as Hdom.
  split.
  - apply set_eq. intros sid.
    by rewrite elem_of_room_members, elem_of_liveConnections, Hroom.
  - intros sid Hsid%elem_of_liveConnections. rewrite <- Hdom. apply elem_of_dom. eauto.
Qed.

(** X4. In every state reached from the start, an emission to a
    principal's personal room reaches exactly the connected sockets of that
    principal, less the sender when [socket.to] is used: a private typing
    signal, a read receipt, a grade or [emitToUser] cannot reach anybody
    else. *)
Theorem personal_room_reaches_its_principal_only
    (db : Store) (acts : list Action) (st : State) (uid : string) :
  run (initial db) acts = Ok st →
  recipients st (ToRoom (user_room uid) None) = liveConnections st uid
  ∧ ∀ sender, recipients st (ToRoom (user_room uid) (Some sender))
              = liveConnections st uid ∖ {[sender]}.
Proof.
  intros Hrun. destruct (personal_room_members _ _ _ uid Hrun) as [Hm Hsub].
  simpl. rewrite Hm. split; [set_solver|]. intros sender. set_solver.
Qed.

Lemma personal_room_reaches_its_principal_only_witness :
  recipients Campus.lobby (ToRoom (user_room "u1") None) = liveConnections Campus.lobby "u1".
Proof.
  apply (personal_room_reaches_its_principal_only Campus.db
           [Client Campus.phone 1 connection; Settle 0;
            Client Campus.bob_sock 2 connection; Settle 0] Campus.lobby "u1").
  vm_compute. reflexivity.
Defined.

Lemma step_registered (st : State) (a : Action) (st' : State) :
  registered st → orderly st a → step st a = Ok st' → registered st'.
Proof.
  intros Hreg Hok Hstep.
  destruct (action_cases a) as [(sock & now & ->)|[(sock & now & ->)|[Hc Hd]]].
  - cbn [step handle] in Hstep. simpl in Hok. injection Hstep as <-. intros uid sid.
    destruct (on_connection_maps st sock now) as (-> & -> & _).
    rewrite !lookup_insert_Some. intros [[<- <-]|[Hne Hl]]; [by left|].
    right. apply Hreg in Hl. split; [|done]. intros <-. congruence.
  - cbn [step handle] in Hstep. simpl in Hok. injection Hstep as <-. intros uid sid.
    destruct (on_disconnect_maps st sock now) as (-> & -> & _).
    rewrite !lookup_delete_Some. intros [Hne Hl]. apply Hreg in Hl.
    split; [|done]. intros <-. congruence.
  - destruct (step_quiet _ _ _ Hstep Hc Hd) as (Hcu & Hus & _).
    unfold registered. by rewrite Hcu, Hus.
Qed.

(** X2. Whatever number of connections principals hold, as long as
    connects come on unused socket ids and other client events from
    registered sockets: when [isUserOnline] answers [true] the principal
    has a registered connection, and a principal with none is never
    reported online. *)
Theorem isUserOnline_implies_live_connection
    (db : Store) (acts : list Action) (st : State) (uid : string) :
  orderly_run (initial db) acts →
  run (initial db) acts = Ok st →
  (isUserOnline st uid = true → liveConnections st uid ≠ ∅)
  ∧ (liveConnections st uid = ∅ → isUserOnline st uid = false).
Proof.
  intros Hwf Hrun.
  assert (registered st) as Hreg.
  { assert (registered (initial db)) as H0 by (intros ? ?; simpl; by rewrite lookup_empty).
    revert H0 Hwf Hrun. generalize (initial db).
    induction acts as [|a acts IH]; intros s Hs Hwf Hrun; simpl in Hrun.
    - by injection Hrun as <-.
    - simpl in Hwf. destruct Hwf as [Hok Hrest].
      destruct (step s a) as [s1|err] eqn:Hstep; [|discriminate Hrun].
      cbn [mbind Result_bind] in Hrun. eauto using step_registered. }
  assert (isUserOnline st uid = true → liveConnections st uid ≠ ∅) as Hon.
  { unfold isUserOnline. rewrite bool_decide_eq_true. intros [sid Hsid].
    apply Hreg, elem_of_liveConnections in Hsid. set_solver. }
  split; [exact Hon|]. intros Hempty.
  destruct (isUserOnline st uid) eqn:Hb; [|done]. by destruct (Hon eq_refl).
Qed.

Lemma isUserOnline_implies_live_connection_witness :
  ∃ st,
    run (initial Campus.db)
        [Client Campus.phone 1 connection; Client Campus.laptop 2 connection;
         Client Campus.phone 3 disconnect; Client Campus.laptop 4 disconnect] = Ok st
    ∧ (liveConnections st "u1" = ∅ → isUserOnline st "u1" = false).
Proof.
  eexists. split; [reflexivity|].
  apply (isUserOnline_implies_live_connection Campus.db
           [Client Campus.phone 1 connection; Client Campus.laptop 2 connection;
            Client Campus.phone 3 disconnect; Client Campus.laptop 4 disconnect] _ "u1").
  - vm_compute. repeat split.
  - reflexivity.
Defined.

Lemma presence_exact_when_single_connection_witness :
  ∃ st,
    run (initial Campus.db)
        [Client Campus.phone 1 connection; Client Campus.bob_sock 2 connection;
         Client Campus.phone 3 disconnect] = Ok st
    ∧ ∀ uid, isUserOnline st uid = true ↔ liveConnections st uid ≠ ∅.
Proof.
  eexists. split; [reflexivity|].
  apply (presence_exact_when_single_connection
           [Client Campus.phone 1 connection; Client Campus.bob_sock 2 connection;
            Client Campus.phone 3 disconnect] (initial Campus.db)).
  - intros uid sid. simpl. by rewrite !lookup_empty.
  - vm_compute. repeat split.
  - reflexivity.
Defined.

(** X11. Only the connection and the disconnect handlers write the two
    connection maps: no other client event (join, leave, typing, read
    receipt, status update, file, announcement), no settling query and no
    store write changes [connectedUsers] or [userSockets], so none of them
    changes what [isUserOnline] answers. *)
Theorem only_connect_and_disconnect_write_the_maps
    (st : State) (a : Action) (st' : State) :
  step st a = Ok st' →
  (∀ sock now, a ≠ Client sock now connection) →
  (∀ sock now, a ≠ Client sock now disconnect) →
  connectedUsers st' = connectedUsers st
  ∧ userSockets st' = userSockets st
  ∧ ∀ uid, isUserOnline st' uid = isUserOnline st uid.
Proof.
  intros Hstep Hc Hd.
  destruct (step_quiet _ _ _ Hstep Hc Hd) as (Hcu & Hus & _).
  split; [exact Hcu|]. split; [exact Hus|]. intros uid. unfold isUserOnline. by rewrite Hcu.
Qed.

Lemma only_connect_and_disconnect_write_the_maps_witness :
  let a := Client Campus.phone 5 (status_update (JStr "offline")) in
  ∃ st', step Campus.lobby a = Ok st'
         ∧ ∀ uid, isUserOnline st' uid = isUserOnline Campus.lobby uid.
Proof.
  intros a. eexists. split; [reflexivity|].
  apply (only_connect_and_disconnect_write_the_maps Campus.lobby a _ eq_refl);
    discriminate.
Defined.

(** ** How a socket comes to be in a room *)

(** X6. One socket per socket id, the store unchanged during the run:
    every room a socket is in is its user's personal room, or the room of a
    course of the store for which that very socket passes [hasAccess]
    (its user is enrolled, teaches the course, or is an admin), or the room
    of its user's own department. No handler puts a socket anywhere
    else. *)
Theorem rooms_are_personal_or_granted
    (db : Store) (who : string → Socket) (acts : list Action) (st : State)
    (sid room : string) :
  Forall (λ a, is_store_write a = false) acts →
  Forall (from_socket who) acts →
  run (initial db) acts = Ok st →
  room ∈ rooms_of st sid →
  (room = user_room (userId (who sid)) ∧ userSockets st !! sid = Some (userId (who sid)))
  ∨ granted db (who sid) room.
Proof.
  intros Hacts Hwho Hrun Hroom.
  set (Inv := λ s : State,
         store s = db
         ∧ (∀ p sock, p ∈ pending s → pending_socket p = Some sock → sock = who (sock_id sock))
         ∧ ∀ sid room, room ∈ rooms_of s sid →
                       room = user_room (userId (who sid)) ∨ granted db (who sid) room).
  assert (Inv st) as (_ & _ & Hinv).
  { assert (Inv (initial db)) as H0.
    { split; [done|]. split; [by intros p sock ?%elem_of_nil|].
      intros s r. unfold rooms_of. simpl. rewrite lookup_empty. set_solver. }
    revert H0 Hrun Hwho. generalize (initial db). clear Hroom.
    induction Hacts as [|a acts Ha Hacts IH]; intros s (Hdb & Hpend & Hs) Hrun Hwho;
      simpl in Hrun.
    - by injection Hrun as <-.
    - destruct (step s a) as [s1|err] eqn:Hstep; [|discriminate Hrun].
      cbn [mbind Result_bind] in Hrun.
      apply Forall_cons in Hwho as [Hwa Hwho].
      apply (IH s1); [|exact Hrun|exact Hwho].
      assert (∀ p sock, p ∈ pending s1 → pending_socket p = Some sock →
                        sock = who (sock_id sock)) as Hpend1.
      { intros p sock Hin Hsock.
        destruct (step_pending _ _ _ _ _ Hstep Hin Hsock) as [?|(now & ev & ->)]; eauto. }
      destruct (action_cases a) as [(sock & now & ->)|[(sock & now & ->)|[Hc Hd]]].
      + cbn [step handle] in Hstep. injection Hstep as <-.
        split; [by rewrite (proj1 (proj2 (proj2 (proj2 (on_connection_maps s sock now)))))|].
        split; [exact Hpend1|].
        intros s' r. rewrite rooms_of_on_connection. case_decide; subst; [|apply Hs].
        intros ->%elem_of_singleton. left. simpl in Hwa. by rewrite <- Hwa.
      + cbn [step handle] in Hstep. injection Hstep as <-.
        split; [done|]. split; [exact Hpend1|].
        intros s' r. rewrite rooms_of_on_disconnect. case_decide; subst; [|apply Hs].
        set_solver.
      + destruct (step_quiet _ _ _ Hstep Hc Hd) as (_ & _ & _ & Hin & _ & Hst).
        split; [by rewrite (Hst Ha)|]. split; [exact Hpend1|].
        intros s' r [Hr|(sock & Hactor & <- & Hg)]%Hin; [by apply Hs|]. right.
        assert (sock = who (sock_id sock)) as <-; [|by rewrite <- Hdb].
        destruct a as [sock' now ev|i|db']; simpl in Hactor.
        * injection Hactor as <-. exact Hwa.
        * destruct (pending s !! i) as [p|] eqn:Hp; [|done]. simpl in Hactor.
          apply (Hpend p); [|done]. by eapply list_elem_of_lookup_2.
        * done. }
  destruct (Hinv _ _ Hroom) as [->|Hg]; [left|by right].
  split; [done|]. by apply (personal_rooms_invariant _ _ _ Hrun).
Qed.

Lemma rooms_are_personal_or_granted_witness :
  let who := λ sid, if String.eqb sid "s1" then Campus.phone else Campus.bob_sock in
  rooms_of Campus.lobby "s1" = {["user_u1"; "course_c1"; "course_c2"; "department_CS"]}
  ∧ (("course_c1" = user_room (userId (who "s1"))
      ∧ userSockets Campus.lobby !! "s1" = Some (userId (who "s1")))
     ∨ granted Campus.db (who "s1") "course_c1").
Proof.
  intros who. split; [vm_compute; reflexivity|].
  apply (rooms_are_personal_or_granted Campus.db who
           [Client Campus.phone 1 connection; Settle 0;
            Client Campus.bob_sock 2 connection; Settle 0] Campus.lobby).
  - repeat constructor.
  - repeat constructor.
  - vm_compute. reflexivity.
  - apply (bool_decide_unpack _). vm_compute. exact I.
Defined.

(** X7. When a student or a teacher connects and the room query of the
    connect resolves, the socket is in the room of a course exactly when
    the store has that course with the user among its enrolled students
    or, for a teacher, as its teacher; and in a department room exactly
    when it is the one of the user's own department. *)
Theorem default_course_rooms_by_role (st : State) (sock : Socket) (now : Z) :
  rejects (store st)
    (QCourseFind match role (sock_user sock) with
                 | student => Enrolled (userId sock)
                 | teacher => TeacherOrEnrolled (userId sock)
                 | admin => AllCourses
                 end) = false →
  let st2 := settle (on_connection st sock now) (length (pending st)) in
  (role (sock_user sock) = student →
     ∀ c, course_room c ∈ rooms_of st2 (sock_id sock) ↔
          ∃ course, course ∈ courses (store st) ∧ c_id course = c
                    ∧ userId sock ∈ enrolledStudents course)
  ∧ (role (sock_user sock) = teacher →
     ∀ c, course_room c ∈ rooms_of st2 (sock_id sock) ↔
          ∃ course, course ∈ courses (store st) ∧ c_id course = c
                    ∧ (c_teacher course = userId sock
                       ∨ userId sock ∈ enrolledStudents course))
  ∧ (∀ d, department_room d ∈ rooms_of st2 (sock_id sock) ↔
          department_of (sock_user sock) = Some d).
Proof.
  intros Hup st2.
  destruct (rooms_after_connect st sock now) as (Hrooms & _). fold st2 in Hrooms.
  assert (∀ c, course_room c ∈ rooms_of st2 (sock_id sock) ↔
               ∃ course, course ∈ courses (store st) ∧ c_id course = c
                 ∧ matches match role (sock_user sock) with
                           | student => Enrolled (userId sock)
                           | teacher => TeacherOrEnrolled (userId sock)
                           | admin => AllCourses
                           end course = true) as Hcourse.
  { intros c. rewrite Hrooms, elem_of_union, elem_of_singleton, elem_of_default_rooms.
    unfold Course_find. rewrite Hup. split.
    - intros [H|(found & [= <-] & [(course & Hin & Heq)|(d & _ & H)])].
      + symmetry in H. by apply room_prefixes in H.
      + apply (inj course_room) in Heq as ->.
        apply list_elem_of_filter in Hin as [Hm Hin]. eauto.
      + discriminate H.
    - intros (course & Hin & <- & Hm). right. eexists. split; [done|].
      left. exists course. split; [|done]. by apply list_elem_of_filter. }
  split; [|split].
  - intros Hrole c. rewrite Hcourse, Hrole. simpl.
    by setoid_rewrite includes_true.
  - intros Hrole c. rewrite Hcourse, Hrole. simpl.
    setoid_rewrite orb_true_iff. setoid_rewrite includes_true.
    by setoid_rewrite String.eqb_eq.
  - intros d. rewrite Hrooms, elem_of_union, elem_of_singleton, elem_of_default_rooms.
    unfold Course_find. rewrite Hup. split.
    + intros [H|(found & _ & [(course & _ & H)|(d' & Hd & H)])]; try discriminate H.
      unfold department_room in H. simpl in H. by simplify_eq.
    + intros Hd. right. eexists. split; [done|]. right. eauto.
Qed.

Lemma default_course_rooms_by_role_witness :
  let st2 := settle (on_connection Campus.lobby Campus.tina_sock 3) 0 in
  (course_room "c3" ∈ rooms_of st2 "s4" ↔
     ∃ course, course ∈ courses Campus.db ∧ c_id course = "c3"
               ∧ (c_teacher course = "t1" ∨ "t1" ∈ enrolledStudents course))
  ∧ (department_room "CS" ∈ rooms_of st2 "s4" ↔ department_of Campus.tina = Some "CS").
Proof.
  intros st2.
  destruct (default_course_rooms_by_role Campus.lobby Campus.tina_sock 3 eq_refl)
    as (_ & Hteacher & Hdept).
  split; [exact (Hteacher eq_refl "c3") | exact (Hdept "CS")].
Defined.

(** X8. When the room query of a connect rejects, the error is swallowed:
    the socket stays in its personal room only (the department room is not
    joined either), nothing is emitted to the client and no query is left
    pending, so nothing retries; department and course emissions do not
    reach the socket. *)
Theorem rejected_room_query_leaves_personal_room_only
    (st : State) (sock : Socket) (now : Z) :
  rejects (store st)
    (QCourseFind match role (sock_user sock) with
                 | student => Enrolled (userId sock)
                 | teacher => TeacherOrEnrolled (userId sock)
                 | admin => AllCourses
                 end) = true →
  let st1 := on_connection st sock now in
  let st2 := settle st1 (length (pending st)) in
  rooms_of st2 (sock_id sock) = {[user_room (userId sock)]}
  ∧ pending st2 = pending st
  ∧ emitted st1 st2 = []
  ∧ (∀ x, sock_id sock ∉ recipients st2 (ToRoom (department_room x) None))
  ∧ (∀ x, sock_id sock ∉ recipients st2 (ToRoom (course_room x) None)).
Proof.
  intros Hdown st1 st2.
  destruct (rooms_after_connect st sock now) as (Hrooms & Hpend & Hw).
  fold st1 st2 in Hrooms, Hpend, Hw.
  assert (rooms_of st2 (sock_id sock) = {[user_room (userId sock)]}) as Hr.
  { rewrite Hrooms. unfold default_rooms, Course_find. rewrite Hdown. set_solver. }
  split; [exact Hr|]. split; [exact Hpend|]. split.
  { apply emitted_app. by rewrite Hw, app_nil_r. }
  split; intros x; simpl; rewrite elem_of_intersection, elem_of_room_members, Hr,
    elem_of_singleton; intros [H _]; discriminate H.
Qed.

Lemma rejected_room_query_leaves_personal_room_only_witness :
  let down := {| users := users Campus.db; courses := courses Campus.db;
                 rejects := λ _, true |} in
  let st2 := settle (on_connection (initial down) Campus.phone 1) 0 in
  rooms_of st2 "s1" = {[user_room "u1"]} ∧ pending st2 = [].
Proof.
  intros down st2.
  destruct (rejected_room_query_leaves_personal_room_only (initial down) Campus.phone 1
              eq_refl) as (Hr & Hp & _).
  split; [exact Hr | exact Hp].
Defined.

(** ** Leaving and rejoining a course room *)

(** X10. [leave_course] is unconditional: for any course id, known to the
    store or not, and whether or not the socket was in the room, it reads
    no store, emits no error, tells the socket [course_left] and the room
    [user_left_course]; afterwards the socket is not in the room and no
    emission to that room reaches it, while every other room membership,
    of this and of every other socket, is as before. *)
Theorem leave_course_is_unconditional (st : State) (sock : Socket) (courseId : string) :
  let st' := on_leave_course st sock courseId in
  (∃ ack notice,
     emitted st st' = [ack; notice]
     ∧ em_scope ack = ToSocket (sock_id sock) ∧ em_event ack = "course_left"
     ∧ em_scope notice = ToRoom (course_room courseId) (Some (sock_id sock))
     ∧ em_event notice = "user_left_course")
  ∧ (∀ db, wire (on_leave_course (with_store st db) sock courseId) = wire st')
  ∧ (course_room courseId ∉ rooms_of st' (sock_id sock))
  ∧ (∀ skip, sock_id sock ∉ recipients st' (ToRoom (course_room courseId) skip))
  ∧ (∀ sid r, sid ≠ sock_id sock ∨ r ≠ course_room courseId →
       r ∈ rooms_of st' sid ↔ r ∈ rooms_of st sid).
Proof.
  intros st'.
  assert (∀ sid, rooms_of st' sid
                 = if decide (sid = sock_id sock)
                   then rooms_of st (sock_id sock) ∖ {[course_room courseId]}
                   else rooms_of st sid) as Hrooms.
  { intros sid. apply (rooms_of_leave st (sock_id sock) (course_room courseId) sid). }
  assert (course_room courseId ∉ rooms_of st' (sock_id sock)) as Hout.
  { rewrite Hrooms, decide_True by done. set_solver. }
  split; [|split; [|split; [|split]]].
  - do 2 eexists. split; [apply emitted_app; simpl; by rewrite <- app_assoc | done].
  - done.
  - exact Hout.
  - intros [sender|]; simpl; rewrite elem_of_intersection;
      [rewrite elem_of_difference|]; rewrite elem_of_room_members; tauto.
  - intros sid r Hne. rewrite Hrooms. case_decide; subst; [|done].
    destruct Hne as [?|?]; [done|]. set_solver.
Qed.

(** X9. Join, leave, join on a connected socket: when the store has the
    course and the principal has access, the second join puts the socket
    back in the room and emits exactly what the first join emitted, to the
    same recipients; every socket's rooms are as after the first join.
    Nothing of the leave blocks the rejoin. *)
Theorem join_leave_join_round_trip
    (st : State) (sock : Socket) (courseId : string) (course : Course) :
  sock_id sock ∈ live st →
  Course_findById (store st) courseId = Resolved (Some course) →
  hasAccess course sock = true →
  let st1 := join_course_resumed st sock courseId in
  let st2 := on_leave_course st1 sock courseId in
  let st3 := join_course_resumed st2 sock courseId in
  course_room courseId ∈ rooms_of st1 (sock_id sock)
  ∧ (course_room courseId ∉ rooms_of st2 (sock_id sock))
  ∧ (∀ sid, rooms_of st3 sid = rooms_of st1 sid)
  ∧ emitted st2 st3 = emitted st st1.
Proof.
  intros Hlive Hfind Hacc st1 st2 st3.
  assert (∀ sid, rooms_of st1 sid
                 = if decide (sid = sock_id sock)
                   then {[course_room courseId]} ∪ rooms_of st (sock_id sock)
                   else rooms_of st sid) as H1.
  { intros sid. subst st1. rewrite rooms_of_join_course_resumed, Hfind, Hacc.
    repeat case_decide; try done; tauto. }
  assert (∀ sid, rooms_of st2 sid
                 = if decide (sid = sock_id sock)
                   then rooms_of st1 (sock_id sock) ∖ {[course_room courseId]}
                   else rooms_of st1 sid) as H2.
  { intros sid. apply (rooms_of_leave st1 (sock_id sock) (course_room courseId) sid). }
  assert (Course_findById (store st2) courseId = Resolved (Some course)) as Hfind2.
  { destruct (join_course_resumed_frame st sock courseId) as (_ & _ & _ & _ & Hdb & _).
    change (store st2) with (store st1). subst st1. by rewrite Hdb. }
  assert (live st2 = live st) as Hl.
  { destruct (join_course_resumed_frame st sock courseId) as (_ & _ & _ & Hlv & _).
    change (live st2) with (live st1). subst st1. by rewrite Hlv. }
  assert (room_members st2 (course_room courseId) ∖ {[sock_id sock]}
          = room_members st (course_room courseId) ∖ {[sock_id sock]}) as Hm.
  { apply set_eq. intros T. rewrite !elem_of_difference, !elem_of_room_members.
    rewrite elem_of_singleton. destruct (decide (T = sock_id sock)) as [->|Hne]; [tauto|].
    by rewrite H2, decide_False, H1, decide_False. }
  split; [|split; [|split]].
  - rewrite H1, decide_True by done. set_solver.
  - rewrite H2, decide_True by done. set_solver.
  - intros sid. subst st3. rewrite rooms_of_join_course_resumed, Hfind2, Hacc, Hl.
    rewrite H1. case_decide as Hsid.
    + destruct Hsid as [-> _]. rewrite decide_True by done.
      rewrite H2, decide_True, H1, decide_True by done.
      apply set_eq. intros r. destruct (decide (r = course_room courseId)); set_solver.
    + rewrite decide_False by tauto. by rewrite H2, decide_False, H1, decide_False by tauto.
  - subst st3. rewrite (join_course_resumed_emitted st2 sock courseId course Hfind2 Hacc).
    subst st1. rewrite (join_course_resumed_emitted st sock courseId course Hfind Hacc).
    by rewrite Hl, Hm.
Qed.

Lemma join_leave_join_round_trip_witness :
  let st1 := join_course_resumed Campus.lobby Campus.phone "c2" in
  let st2 := on_leave_course st1 Campus.phone "c2" in
  let st3 := join_course_resumed st2 Campus.phone "c2" in
  (∀ sid, rooms_of st3 sid = rooms_of st1 sid)
  ∧ emitted st2 st3 = emitted Campus.lobby st1.
Proof.
  intros st1 st2 st3.
  destruct (join_leave_join_round_trip Campus.lobby Campus.phone "c2" Campus.logic)
    as (_ & _ & Hr & He).
  - apply (bool_decide_unpack _). vm_compute. exact I.
  - vm_compute. reflexivity.
  - reflexivity.
  - split; [exact Hr | exact He].
Defined.

(** ** Grades *)

Lemma assoc_set_prop_eq (k : string) (v : jsval) (fields : list (string * jsval)) :
  assoc k (set_prop k v fields) = Some v.
Proof.
  induction fields as [|[k' v'] rest IH]; simpl.
  - by rewrite String.eqb_refl.
  - destruct (String.eqb k k') eqn:Hk; simpl; rewrite Hk; [done|exact IH].
Qed.

Lemma assoc_set_prop_ne (k k0 : string) (v : jsval) (fields : list (string * jsval)) :
  k0 ≠ k → assoc k0 (set_prop k v fields) = assoc k0 fields.
Proof.
  intros Hne. induction fields as [|[k' v'] rest IH]; simpl.
  - by apply String.eqb_neq in Hne as ->.
  - destruct (String.eqb k k') eqn:Hk; simpl.
    + apply String.eqb_eq in Hk as <-. by apply String.eqb_neq in Hne as ->.
    + by rewrite IH.
Qed.

(** X12. A [grade_updated] whose payload, as the transport decodes it, can
    be read: when [studentId] has a string form the handler makes one
    emission, [grade_updated], to the personal room that form names,
    skipping the sender, and changes nothing else; its [timestamp] is the
    server clock even when [gradeInfo] brings a [timestamp] of its own, and
    every other property of [gradeInfo] is passed on unchanged. When
    [studentId] has no string form the handler throws and nothing is
    sent. *)
Theorem grade_updated_stamps_and_forwards
    (st : State) (sock : Socket) (now : Z) (data studentId gradeInfo : jsval) :
  decoded data = true →
  get_prop data "studentId" = Ok studentId →
  get_prop data "gradeInfo" = Ok gradeInfo →
  match to_string studentId with
  | Threw err => on_grade_updated st sock now data = Threw err
  | Ok name =>
      ∃ st' e,
        on_grade_updated st sock now data = Ok st'
        ∧ only_wire st st'
        ∧ emitted st st' = [e]
        ∧ em_event e = "grade_updated"
        ∧ em_scope e = ToRoom (user_room name) (Some (sock_id sock))
        ∧ em_to e = (room_members st (user_room name) ∖ {[sock_id sock]}) ∩ live st
        ∧ field (em_payload e) "timestamp" = Some (JDate now)
        ∧ ∀ k, k ≠ "timestamp" → field (em_payload e) k = assoc k (own_props gradeInfo)
  end.
Proof.
  intros _ Hs Hg. unfold on_grade_updated. rewrite Hs. cbn [mbind Result_bind]. rewrite Hg.
  cbn [mbind Result_bind]. destruct (to_string studentId) as [name|err]; [|done].
  cbn [mbind Result_bind]. do 2 eexists. split; [reflexivity|]. split; [done|].
  split; [apply emitted_emit|]. repeat split.
  - apply assoc_set_prop_eq.
  - intros k Hk. by apply assoc_set_prop_ne.
Qed.

Lemma grade_updated_stamps_and_forwards_witness :
  let info := JObj [("grade", JNum 17); ("timestamp", JStr "1999-01-01")] in
  let data := JObj [("studentId", JStr "u1"); ("gradeInfo", info)] in
  let unreadable := JObj [("studentId", JObj [("toString", JStr "x")]); ("gradeInfo", info)] in
  (∃ st' e,
     on_grade_updated Campus.lobby Campus.bob_sock 9 data = Ok st'
     ∧ emitted Campus.lobby st' = [e]
     ∧ em_scope e = ToRoom "user_u1" (Some "s3")
     ∧ field (em_payload e) "timestamp" = Some (JDate 9)
     ∧ field (em_payload e) "grade" = Some (JNum 17))
  ∧ on_grade_updated Campus.lobby Campus.bob_sock 9 unreadable = Threw "TypeError".
Proof.
  intros info data unreadable. split.
  - destruct (grade_updated_stamps_and_forwards Campus.lobby Campus.bob_sock 9 data
                (JStr "u1") info eq_refl eq_refl eq_refl)
      as (st' & e & Hrun & _ & Hem & _ & Hsc & _ & Hts & Hrest).
    exists st', e. split; [exact Hrun|]. split; [exact Hem|]. split; [exact Hsc|].
    split; [exact Hts|]. rewrite (Hrest "grade") by discriminate. reflexivity.
  - exact (grade_updated_stamps_and_forwards Campus.lobby Campus.bob_sock 9 unreadable
             (JObj [("toString", JStr "x")]) info eq_refl eq_refl eq_refl).
Defined.

(** ** The handshake *)

Lemma prefix_app (pat s : string) : String.prefix pat (pat +:+ s) = true.
Proof.
  induction pat as [|c pat IH]; simpl; [by destruct s|].
  destruct (Ascii.ascii_dec c c); [exact IH|done].
Qed.

Lemma drop_chars_app (pat s : string) : drop_chars (String.length pat) (pat +:+ s) = s.
Proof. induction pat as [|c pat IH]; simpl; [by destruct s|exact IH]. Qed.

Lemma remove_first_unfold (pat s : string) :
  remove_first pat s
  = if String.prefix pat s then drop_chars (String.length pat) s
    else match s with
         | EmptyString => EmptyString
         | String c rest => String c (remove_first pat rest)
         end.
Proof. by destruct s. Qed.

Lemma remove_first_app (pat s : string) : remove_first pat (pat +:+ s) = s.
Proof. by rewrite remove_first_unfold, prefix_app, drop_chars_app. Qed.

(** X13. The middleware accepts a socket exactly when a token is present,
    the verifier accepts it, and the store returns for the user id it names
    a user whose [isActive] is set; the accepted socket then carries that
    stored user and that user id. A missing token, a token the verifier
    rejects, an unknown user, an inactive user and a store failure are all
    refused. *)
Theorem authenticate_accepts_active_users_only
    (verify : jsval → option string) (db : Store) (hs : Handshake) (sock : Socket) :
  (authenticate verify db hs = Accepted sock ↔
     truthy (handshake_token hs) = true
     ∧ ∃ uid, verify (handshake_token hs) = Some uid
              ∧ User_findById db uid = Resolved (Some (sock_user sock))
              ∧ isActive (sock_user sock) = true
              ∧ sock_id sock = hs_socket_id hs)
  ∧ (authenticate verify db hs = Accepted sock →
       sock_user sock ∈ users db
       ∧ isActive (sock_user sock) = true
       ∧ verify (handshake_token hs) = Some (userId sock)).
Proof.
  assert (authenticate verify db hs = Accepted sock ↔
          truthy (handshake_token hs) = true
          ∧ ∃ uid, verify (handshake_token hs) = Some uid
                   ∧ User_findById db uid = Resolved (Some (sock_user sock))
                   ∧ isActive (sock_user sock) = true
                   ∧ sock_id sock = hs_socket_id hs) as Hiff.
  { unfold authenticate. split.
    - destruct (truthy (handshake_token hs)); simpl; [|done].
      destruct (verify (handshake_token hs)) as [uid|]; [|done].
      destruct (User_findById db uid) as [[user|]|] eqn:Hfind; try done.
      destruct (isActive user) eqn:Hact; [|done].
      intros [= <-]. split; [done|]. exists uid. by repeat split.
    - intros (-> & uid & -> & -> & -> & Hid). simpl. destruct sock. simpl in *. by subst. }
  split; [exact Hiff|].
  intros (_ & uid & Hv & Hfind & Hact & _)%Hiff.
  unfold User_findById in Hfind. destruct (rejects db _); [done|].
  injection Hfind as Hfind. apply find_eqb_Some in Hfind as [Hin Hid].
  unfold userId. by rewrite Hid.
Qed.

Lemma authenticate_accepts_active_users_only_witness :
  let verify := λ t, match t with JStr "tok-u1" => Some "u1" | _ => None end in
  let hs := {| hs_socket_id := "s1"; auth_token := JStr "tok-u1"; authorization := None |} in
  authenticate verify Campus.db hs = Accepted Campus.phone
  ∧ isActive (sock_user Campus.phone) = true.
Proof.
  intros verify hs.
  assert (authenticate verify Campus.db hs = Accepted Campus.phone) as H
    by (vm_compute; reflexivity).
  split; [exact H|].
  by destruct (authenticate_accepts_active_users_only verify Campus.db hs Campus.phone)
    as (_ & Hfacts); destruct (Hfacts H) as (_ & ? & _).
Defined.

(** X14. Which token the middleware uses: a truthy [handshake.auth.token]
    wins and the [authorization] header is then ignored; with none, a
    header [Bearer t] stands for the token [t], so it is decided exactly as
    [auth.token = t] would be. *)
Theorem authenticate_token_sources
    (verify : jsval → option string) (db : Store) (sid : string) :
  (∀ tok header,
     truthy tok = true →
     authenticate verify db {| hs_socket_id := sid; auth_token := tok; authorization := header |}
     = authenticate verify db {| hs_socket_id := sid; auth_token := tok; authorization := None |})
  ∧ (∀ none t,
       truthy none = false →
       authenticate verify db
         {| hs_socket_id := sid; auth_token := none; authorization := Some ("Bearer " +:+ t) |}
       = authenticate verify db
           {| hs_socket_id := sid; auth_token := JStr t; authorization := None |})
  ∧ (∀ none,
       truthy none = false →
       authenticate verify db
         {| hs_socket_id := sid; auth_token := none; authorization := None |}
       = Refused "Authentication error: No token provided").
Proof.
  split; [|split].
  - intros tok header Htok. unfold authenticate, handshake_token. simpl. by rewrite Htok.
  - intros none t Hnone. unfold authenticate, handshake_token.
    cbn [auth_token authorization hs_socket_id]. rewrite Hnone, remove_first_app.
    destruct (truthy (JStr t)) eqn:Ht; cbn [negb]; by rewrite ?Ht.
  - intros none Hnone. unfold authenticate, handshake_token. simpl. by rewrite Hnone.
Qed.

Lemma authenticate_token_sources_witness :
  let verify := λ t, match t with JStr "tok-u1" => Some "u1" | _ => None end in
  authenticate verify Campus.db
    {| hs_socket_id := "s1"; auth_token := JUndefined;
       authorization := Some "Bearer tok-u1" |}
  = authenticate verify Campus.db
      {| hs_socket_id := "s1"; auth_token := JStr "tok-u1"; authorization := None |}.
Proof.
  intros verify.
  destruct (authenticate_token_sources verify Campus.db "s1") as (_ & Hbearer & _).
  exact (Hbearer JUndefined "tok-u1" eq_refl).
Defined.

(** ** The exported functions on reachable states *)

(** X15. In every state reached from the start, [emitToUser] answers
    [true] only for a principal [isUserOnline] reports, and then makes one
    emission that reaches exactly that principal's connected sockets; when
    it answers [false] nothing is emitted and nothing changes. Before
    [initializeSocket] it answers [false]. *)
Theorem emitToUser_reaches_its_principal
    (db : Store) (acts : list Action) (st : State) (uid event : string) (data : jsval) :
  run (initial db) acts = Ok st →
  emitToUser None uid event data = (false, None)
  ∧ match emitToUser (Some st) uid event data with
    | (true, io') =>
        isUserOnline st uid = true
        ∧ io' = Some (emit st (ToRoom (user_room uid) None) event data)
        ∧ emitted st (emit st (ToRoom (user_room uid) None) event data)
          = [{| em_scope := ToRoom (user_room uid) None; em_event := event;
                em_payload := data; em_to := liveConnections st uid |}]
    | (false, io') => io' = Some st
    end.
Proof.
  intros Hrun. split; [done|]. unfold emitToUser.
  destruct (connectedUsers st !! uid) as [socketId|] eqn:Hcu; [|done].
  destruct (String.eqb socketId ""); simpl; [done|].
  split; [|split; [done|]].
  - unfold isUserOnline. rewrite Hcu. by apply bool_decide_eq_true.
  - rewrite emitted_emit. do 2 f_equal.
    destruct (personal_room_members db acts st uid Hrun) as [Hm Hsub].
    simpl. rewrite Hm. set_solver.
Qed.

Lemma emitToUser_reaches_its_principal_witness :
  match emitToUser (Some Campus.lobby) "u2" "notice" JNull with
  | (true, io') => isUserOnline Campus.lobby "u2" = true
                   ∧ io' = Some (emit Campus.lobby (ToRoom (user_room "u2") None)
                                   "notice" JNull)
                   ∧ emitted Campus.lobby
                       (emit Campus.lobby (ToRoom (user_room "u2") None) "notice" JNull)
                     = [{| em_scope := ToRoom (user_room "u2") None; em_event := "notice";
                           em_payload := JNull;
                           em_to := liveConnections Campus.lobby "u2" |}]
  | (false, io') => io' = Some Campus.lobby
  end.
Proof.
  apply (emitToUser_reaches_its_principal Campus.db
           [Client Campus.phone 1 connection; Settle 0;
            Client Campus.bob_sock 2 connection; Settle 0] Campus.lobby "u2" "notice" JNull).
  vm_compute. reflexivity.
Defined.

(** X17. In every state reached from the start, the user ids
    [getCourseOnlineUsers] returns for a course are those of the connected
    sockets in the course room: a socket id that [userSockets] does not
    know is not listed, and once a socket has disconnected its user is
    listed only for another socket. Before [initializeSocket] the list is
    empty. *)
Theorem getCourseOnlineUsers_lists_connected_members
    (db : Store) (acts : list Action) (st : State) (courseId uid : string) :
  run (initial db) acts = Ok st →
  getCourseOnlineUsers None courseId = ∅
  ∧ (uid ∈ getCourseOnlineUsers (Some st) courseId ↔
       uid ≠ ""
       ∧ ∃ sid, sid ∈ live st
                ∧ course_room courseId ∈ rooms_of st sid
                ∧ userSockets st !! sid = Some uid).
Proof.
  intros Hrun. split; [done|].
  pose proof (dom_userSockets_live _ _ _ Hrun) as Hdom.
  unfold getCourseOnlineUsers. rewrite elem_of_set_omap. split.
  - intros (sid & Hsid%elem_of_room_members & Hf).
    destruct (userSockets st !! sid) as [u|] eqn:Hus; [|done].
    destruct (String.eqb u "") eqn:Hne; [done|]. injection Hf as ->.
    split; [by apply String.eqb_neq|]. exists sid. split; [|by split].
    rewrite <- Hdom. apply elem_of_dom. eauto.
  - intros (Hne & sid & _ & Hroom & Hus). exists sid.
    split; [by apply elem_of_room_members|]. rewrite Hus.
    by apply String.eqb_neq in Hne as ->.
Qed.

Lemma getCourseOnlineUsers_lists_connected_members_witness :
  ∃ st1 st2,
    run (initial Campus.db) [Client Campus.phone 1 connection; Settle 0] = Ok st1
    ∧ run st1 [Client Campus.phone 2 disconnect; Settle 0] = Ok st2
    ∧ getCourseOnlineUsers (Some st1) "c1" = {["u1"]}
    ∧ getCourseOnlineUsers (Some st2) "c1" = ∅.
Proof.
  do 2 eexists. split; [reflexivity|]. split; [reflexivity|].
  split; [vm_compute; reflexivity|].
  apply set_eq. intros uid.
  destruct (getCourseOnlineUsers_lists_connected_members Campus.db
              [Client Campus.phone 1 connection; Settle 0;
               Client Campus.phone 2 disconnect; Settle 0]
              _ "c1" uid eq_refl) as [_ ->].
  split; [|set_solver]. intros (_ & sid & Hlive & _). vm_compute in Hlive. set_solver.
Defined.

(** ** The online count *)

Lemma run_registered (db : Store) (acts : list Action) (st : State) :
  orderly_run (initial db) acts → run (initial db) acts = Ok st → registered st.
Proof.
  assert (registered (initial db)) as H0 by (intros ? ?; simpl; by rewrite lookup_empty).
  revert H0. generalize (initial db).
  induction acts as [|a acts IH]; intros s Hs Hwf Hrun; simpl in Hrun.
  - by injection Hrun as <-.
  - simpl in Hwf. destruct Hwf as [Hok Hrest].
    destruct (step s a) as [s1|err] eqn:Hstep; [|discriminate Hrun].
    cbn [mbind Result_bind] in Hrun. eauto using step_registered.
Qed.

Lemma size_le_of_back_pointers (cu us : gmap string string) :
  (∀ uid sid, cu !! uid = Some sid → us !! sid = Some uid) → size cu ≤ size us.
Proof.
  revert us. induction cu as [|uid sid m Hm IH] using map_ind; intros us Hback.
  - rewrite map_size_empty. lia.
  - assert (us !! sid = Some uid) as Hsid by (apply Hback; by rewrite lookup_insert_eq).
    assert (size m ≤ size (delete sid us)) as Hle.
    { apply IH. intros u' s' Hl.
      assert (u' ≠ uid) as Hne by congruence.
      assert (us !! s' = Some u') as Hs'.
      { apply Hback. by rewrite lookup_insert_ne. }
      rewrite lookup_delete_ne; [done|]. intros <-. congruence. }
    rewrite map_size_insert_None by done.
    rewrite map_size_delete, Hsid in Hle. simpl in Hle.
    assert (size us ≠ 0); [|lia].
    intros Hz%map_size_empty_iff. by rewrite Hz, lookup_empty in Hsid.
Qed.

(** X16. [getOnlineUsersCount] counts principals, not connections: a
    connect raises it by one only when the principal was not already
    reported online, a disconnect lowers it by one whenever the principal
    was reported online (whichever of its sockets closes). When connects
    come on unused socket ids and other client events from registered
    sockets, the count never exceeds the number of connected sockets. *)
Theorem online_count_counts_principals
    (db : Store) (acts : list Action) (st : State) :
  orderly_run (initial db) acts →
  run (initial db) acts = Ok st →
  getOnlineUsersCount st ≤ size (live st)
  ∧ (∀ sock now,
       getOnlineUsersCount (on_connection st sock now)
       = if isUserOnline st (userId sock) then getOnlineUsersCount st
         else S (getOnlineUsersCount st))
  ∧ (∀ sock now,
       getOnlineUsersCount (on_disconnect st sock now)
       = if isUserOnline st (userId sock) then pred (getOnlineUsersCount st)
         else getOnlineUsersCount st).
Proof.
  intros Hwf Hrun. split; [|split].
  - rewrite <- (dom_userSockets_live _ _ _ Hrun).
    rewrite size_dom. apply size_le_of_back_pointers. by eapply run_registered.
  - intros sock now. unfold getOnlineUsersCount, isUserOnline.
    rewrite (proj1 (on_connection_maps st sock now)).
    rewrite map_size_insert. destruct (connectedUsers st !! userId sock) eqn:Hcu.
    + by rewrite bool_decide_eq_true_2.
    + rewrite bool_decide_eq_false_2; [done|]. by intros [? ?].
  - intros sock now. unfold getOnlineUsersCount, isUserOnline. simpl.
    rewrite map_size_delete. destruct (connectedUsers st !! userId sock) eqn:Hcu.
    + by rewrite bool_decide_eq_true_2.
    + rewrite bool_decide_eq_false_2; [done|]. by intros [? ?].
Qed.

Lemma online_count_counts_principals_witness :
  ∃ st,
    run (initial Campus.db)
        [Client Campus.phone 1 connection; Client Campus.laptop 2 connection;
         Client Campus.bob_sock 3 connection] = Ok st
    ∧ getOnlineUsersCount st = 2
    ∧ size (live st) = 3
    ∧ getOnlineUsersCount st ≤ size (live st).
Proof.
  eexists. split; [reflexivity|]. split; [vm_compute; reflexivity|].
  split; [vm_compute; reflexivity|].
  apply (online_count_counts_principals Campus.db
           [Client Campus.phone 1 connection; Client Campus.laptop 2 connection;
            Client Campus.bob_sock 3 connection]).
  - vm_compute. repeat split.
  - reflexivity.
Defined.

(** ** Private signals *)

(** X18. In every state reached from the start, a private [typing_start]
    and a private [message_read], as the transport decodes them, whose
    target id ([recipientId], [senderId]) has a string form reach exactly
    the connected sockets of the principal that form names, less the
    sending socket, and nobody else; with a target id that has no string
    form the handler throws and nothing is sent. *)
Theorem private_signals_reach_the_named_principal_only
    (db : Store) (acts : list Action) (st : State) (sock : Socket) (now : Z)
    (data target : jsval) :
  run (initial db) acts = Ok st →
  decoded data = true →
  truthy target = true →
  get_prop data "conversationType" = Ok (JStr "private") →
  match to_string target with
  | Threw err =>
      (get_prop data "recipientId" = Ok target →
         handle st sock now (typing_start data) = Threw err)
      ∧ (get_prop data "senderId" = Ok target →
           handle st sock now (message_read data) = Threw err)
  | Ok name =>
      (get_prop data "recipientId" = Ok target →
         ∃ st' e, handle st sock now (typing_start data) = Ok st'
                  ∧ emitted st st' = [e] ∧ em_event e = "user_typing"
                  ∧ em_to e = liveConnections st name ∖ {[sock_id sock]})
      ∧ (get_prop data "senderId" = Ok target →
           ∃ st' e, handle st sock now (message_read data) = Ok st'
                    ∧ emitted st st' = [e] ∧ em_event e = "message_read_receipt"
                    ∧ em_to e = liveConnections st name ∖ {[sock_id sock]})
  end.
Proof.
  intros Hrun _ Htarget Htype.
  destruct data as [| | | | | | |fields]; try discriminate Htype.
  simpl in Htype. injection Htype as Htype.
  destruct (to_string target) as [name|err] eqn:Hname.
  - destruct (personal_room_members db acts st name Hrun) as [Hm Hsub].
    assert ((room_members st (user_room name) ∖ {[sock_id sock]}) ∩ live st
            = liveConnections st name ∖ {[sock_id sock]}) as Hroom
      by (rewrite Hm; set_solver).
    split; intros [= Ht];
      cbn [handle on_typing_start on_message_read get_prop mbind Result_bind];
      rewrite Htype, Ht, Htarget; simpl; rewrite Hname; cbn [mbind Result_bind];
      do 2 eexists; (split; [reflexivity|]); rewrite emitted_emit;
      (split; [reflexivity|]); (split; [reflexivity|]); exact Hroom.
  - split; intros [= Ht];
      cbn [handle on_typing_start on_message_read get_prop mbind Result_bind];
      rewrite Htype, Ht, Htarget; simpl; by rewrite Hname.
Qed.

Lemma private_signals_reach_the_named_principal_only_witness :
  let data := JObj [("recipientId", JStr "u1"); ("conversationType", JStr "private")] in
  ∃ st' e, handle Campus.lobby Campus.bob_sock 5 (typing_start data) = Ok st'
           ∧ emitted Campus.lobby st' = [e] ∧ em_event e = "user_typing"
           ∧ em_to e = liveConnections Campus.lobby "u1" ∖ {["s3"]}.
Proof.
  intros data.
  destruct (private_signals_reach_the_named_principal_only Campus.db
              [Client Campus.phone 1 connection; Settle 0;
               Client Campus.bob_sock 2 connection; Settle 0]
              Campus.lobby Campus.bob_sock 5 data (JStr "u1")) as [Htyping _].
  - vm_compute. reflexivity.
  - reflexivity.
  - reflexivity.
  - reflexivity.
  - exact (Htyping eq_refl).
Defined.
